(** * FPS Mouse Test & Diagnosis: the capture and logging core

    A shallow embedding of [LoggerCore] (the event-to-record pipeline of
    [mouse_logger_gui.py]) and the properties of its click-rate tracker,
    its enrichment of button and wheel events, its CSV writer and its
    start/stop life cycle.

    Conventions of the embedding:
    - the attributes of the Python object keep their names in the record
      [State]; the two last fields are the part of the environment the
      object acts on (the file at [filepath], and a count of [close()]
      calls);
    - every reading of a clock and every outcome of a guarded system call
      comes from an [Env] value handed to the call;
    - the file is a list of rows, a row is the list of values given to
      [csv.writer.writerow];
    - the readings of [time.time()] that decide a flush are binary64 floats,
      as in the source; the CPS threshold is a rational (the count of a
      deque is an integer and the comparison of an integer-valued float
      with a finite float is exact);
    - a [try: ... except Exception: pass] of the source is [try_pass];
      [open], [close] and the [flush()] after the header row, which the
      source calls unguarded, raise when the environment says so, and what
      they raise leaves the method;
    - a file object that is no longer referenced is not followed: what its
      buffer still held is not counted as written. *)

From Stdlib Require Import ZArith QArith List String Bool Lia Sorted.
From Stdlib Require Import PrimFloat Uint63.
Import ListNotations.
Local Open Scope Z_scope.

(** ** Constants *)

Definition NEAR_CLICK_MS_DEFAULT : Z := 80.
Definition COMBAT_WINDOW_MS : Z := 1000.
Definition COMBAT_CPS_DEFAULT : Q := 2 # 1.
Definition COORDS_ENABLED_DEFAULT : bool := false.

(** ** CSV values, rows and schema *)

(** A value handed to [writerow]: an [int] or a [str]. *)
Inductive Cell : Type :=
| CInt (z : Z)
| CStr (s : string).

Definition blank : Cell := CStr "".

Definition Row : Type := list Cell.

Definition HEADER : Row :=
  map CStr
    ["timestamp"; "ms_since_start"; "x"; "y"; "dx"; "dy";
     "ms_since_button_event"; "combat_state"; "scroll_near_click";
     "event"]%string.

Definition Cell_eqb (a b : Cell) : bool :=
  match a, b with
  | CInt m, CInt n => m =? n
  | CStr s, CStr t => String.eqb s t
  | _, _ => false
  end.

(** ** Events and enriched records *)

(** [pynput.mouse.Button]: only the member's [name] is used. *)
Record Button : Type := { name : string }.

(** The tuple forwarded to the UI queue, in the tuple's order (which is the
    parameter order of [_write_row]). *)
Record EventRecord : Type := mkEventRecord {
  rec_ts_iso : string;
  rec_ms_since_start : Z;
  rec_x : Cell;
  rec_y : Cell;
  rec_dx : Cell;
  rec_dy : Cell;
  rec_event : string;
  rec_ms_since_button_event : Z;
  rec_scroll_near_click : Z;
  rec_combat_state : string
}.

(** What the listener delivers. *)
Inductive Event : Type :=
| Click (x y : Z) (button : Button) (pressed : bool)
| Scroll (x y dx dy : Z).

(** ** The bounded queue ([queue.Queue(maxsize)]) *)

Record Queue : Type := { maxsize : Z; items : list EventRecord }.

(** [Queue.full]: a [maxsize <= 0] queue is unbounded. *)
Definition full (q : Queue) : bool :=
  (0 <? maxsize q) && (maxsize q <=? Z.of_nat (List.length (items q))).

(** [put_nowait]: [None] stands for [queue.Full]. *)
Definition put_nowait (r : EventRecord) (q : Queue) : option Queue :=
  if full q then None
  else Some {| maxsize := maxsize q; items := items q ++ [r] |}.

(** [get_nowait]: [None] stands for [queue.Empty]. *)
Definition get_nowait (q : Queue) : option (EventRecord * Queue) :=
  match items q with
  | [] => None
  | r :: rest => Some (r, {| maxsize := maxsize q; items := rest |})
  end.

(** ** Exceptions and outcomes *)

Inductive exn : Type :=
| OSError
| ValueError.

Inductive outcome : Type :=
| Returned
| Raised (e : exn).

(** ** The environment of one call *)

Record Env : Type := {
  _ts_ms : Z;                   (* int(time.time() * 1000) *)
  _ts_iso : string;             (* datetime.now().isoformat(...) *)
  time_time : float;            (* time.time() read in _write_row *)
  open_raises : bool;           (* open(self.filepath, "a", ...) raises *)
  buffer_spills : bool;         (* the buffer of the file fills up and is
                                   written out by the write itself *)
  listener_stop_raises : bool;  (* listener.stop() raises *)
  flush_raises : bool;          (* _f.flush() raises *)
  fsync_raises : bool;          (* os.fsync(...) raises *)
  close_raises : bool           (* _f.close() raises *)
}.

(** ** State *)

(** A file object: the rows written and not yet in the file, and whether
    the object has been closed. *)
Record FileObj : Type := { pending : list Row; closed : bool }.

(** [csv.writer(self._f)]: it writes through to the file object in [_f]. *)
Inductive Writer : Type := csv_writer.

(** [mouse.Listener(on_click=..., on_scroll=...)]. *)
Record Listener : Type := { running : bool }.

Record State : Type := mkState {
  filepath : string;
  event_queue : Queue;
  listener : option Listener;
  _f : option FileObj;
  _csv : option Writer;
  _last_flush : float;
  _near_click_ms : Z;
  _combat_cps : Q;
  _coords_enabled : bool;
  start_ms : option Z;
  _last_btn_ts_ms : option Z;
  _lmb_down_times : list Z;
  (* environment *)
  disk : option (list Row);     (* the file at filepath, None if absent *)
  n_close : nat                 (* calls of close() so far *)
}.

Definition set_event_queue (v : Queue) (s : State) : State :=
  mkState (filepath s) v (listener s) (_f s) (_csv s) (_last_flush s)
    (_near_click_ms s) (_combat_cps s) (_coords_enabled s) (start_ms s)
    (_last_btn_ts_ms s) (_lmb_down_times s) (disk s) (n_close s).

Definition set_listener (v : option Listener) (s : State) : State :=
  mkState (filepath s) (event_queue s) v (_f s) (_csv s) (_last_flush s)
    (_near_click_ms s) (_combat_cps s) (_coords_enabled s) (start_ms s)
    (_last_btn_ts_ms s) (_lmb_down_times s) (disk s) (n_close s).

Definition set_f (v : option FileObj) (s : State) : State :=
  mkState (filepath s) (event_queue s) (listener s) v (_csv s) (_last_flush s)
    (_near_click_ms s) (_combat_cps s) (_coords_enabled s) (start_ms s)
    (_last_btn_ts_ms s) (_lmb_down_times s) (disk s) (n_close s).

Definition set_csv (v : option Writer) (s : State) : State :=
  mkState (filepath s) (event_queue s) (listener s) (_f s) v (_last_flush s)
    (_near_click_ms s) (_combat_cps s) (_coords_enabled s) (start_ms s)
    (_last_btn_ts_ms s) (_lmb_down_times s) (disk s) (n_close s).

Definition set_last_flush (v : float) (s : State) : State :=
  mkState (filepath s) (event_queue s) (listener s) (_f s) (_csv s) v
    (_near_click_ms s) (_combat_cps s) (_coords_enabled s) (start_ms s)
    (_last_btn_ts_ms s) (_lmb_down_times s) (disk s) (n_close s).

Definition set_near_click_ms (v : Z) (s : State) : State :=
  mkState (filepath s) (event_queue s) (listener s) (_f s) (_csv s)
    (_last_flush s) v (_combat_cps s) (_coords_enabled s) (start_ms s)
    (_last_btn_ts_ms s) (_lmb_down_times s) (disk s) (n_close s).

Definition set_combat_cps (v : Q) (s : State) : State :=
  mkState (filepath s) (event_queue s) (listener s) (_f s) (_csv s)
    (_last_flush s) (_near_click_ms s) v (_coords_enabled s) (start_ms s)
    (_last_btn_ts_ms s) (_lmb_down_times s) (disk s) (n_close s).

Definition set_coords_enabled (v : bool) (s : State) : State :=
  mkState (filepath s) (event_queue s) (listener s) (_f s) (_csv s)
    (_last_flush s) (_near_click_ms s) (_combat_cps s) v (start_ms s)
    (_last_btn_ts_ms s) (_lmb_down_times s) (disk s) (n_close s).

Definition set_start_ms (v : option Z) (s : State) : State :=
  mkState (filepath s) (event_queue s) (listener s) (_f s) (_csv s)
    (_last_flush s) (_near_click_ms s) (_combat_cps s) (_coords_enabled s) v
    (_last_btn_ts_ms s) (_lmb_down_times s) (disk s) (n_close s).

Definition set_last_btn_ts_ms (v : option Z) (s : State) : State :=
  mkState (filepath s) (event_queue s) (listener s) (_f s) (_csv s)
    (_last_flush s) (_near_click_ms s) (_combat_cps s) (_coords_enabled s)
    (start_ms s) v (_lmb_down_times s) (disk s) (n_close s).

Definition set_lmb_down_times (v : list Z) (s : State) : State :=
  mkState (filepath s) (event_queue s) (listener s) (_f s) (_csv s)
    (_last_flush s) (_near_click_ms s) (_combat_cps s) (_coords_enabled s)
    (start_ms s) (_last_btn_ts_ms s) v (disk s) (n_close s).

Definition set_disk (v : option (list Row)) (s : State) : State :=
  mkState (filepath s) (event_queue s) (listener s) (_f s) (_csv s)
    (_last_flush s) (_near_click_ms s) (_combat_cps s) (_coords_enabled s)
    (start_ms s) (_last_btn_ts_ms s) (_lmb_down_times s) v (n_close s).

Definition set_n_close (v : nat) (s : State) : State :=
  mkState (filepath s) (event_queue s) (listener s) (_f s) (_csv s)
    (_last_flush s) (_near_click_ms s) (_combat_cps s) (_coords_enabled s)
    (start_ms s) (_last_btn_ts_ms s) (_lmb_down_times s) (disk s) v.

(** [LoggerCore.__init__]; [now] is the [time.time()] it reads.  The file
    at [filepath] is whatever the environment holds ([d]). *)
Definition __init__ (filepath : string) (event_queue : Queue)
    (near_click_ms : Z) (combat_cps : Q) (coords_enabled : bool)
    (now : float) (d : option (list Row)) : State :=
  mkState filepath event_queue None None None now near_click_ms combat_cps
    coords_enabled None None [] d 0%nat.

(** ** Rolling click-rate tracker *)

(** The loop [while d and d[0] < cutoff: d.popleft()]. *)
Fixpoint prune (cutoff : Z) (d : list Z) : list Z :=
  match d with
  | [] => []
  | t :: rest => if t <? cutoff then prune cutoff rest else d
  end.

Definition _record_lmb_down (now_ms : Z) (self : State) : State :=
  let cutoff := now_ms - COMBAT_WINDOW_MS in
  let self := set_lmb_down_times (_lmb_down_times self ++ [now_ms]) self in
  set_lmb_down_times (prune cutoff (_lmb_down_times self)) self.

(** [len(d) / (COMBAT_WINDOW_MS / 1000.0)]. *)
Definition cps_of (d : list Z) : Q :=
  (inject_Z (Z.of_nat (List.length d))
   / (inject_Z COMBAT_WINDOW_MS / (1000 # 1)))%Q.

Definition _combat_state (now_ms : Z) (self : State) : State * string :=
  let cutoff := now_ms - COMBAT_WINDOW_MS in
  let self := set_lmb_down_times (prune cutoff (_lmb_down_times self)) self in
  let cps := cps_of (_lmb_down_times self) in
  (self, if Qle_bool (_combat_cps self) cps then "combat"%string
         else "idle"%string).

(** ** Durable log writer *)

(** The list handed to [writerow] in [_write_row]. *)
Definition row_of (r : EventRecord) : Row :=
  [CStr (rec_ts_iso r); CInt (rec_ms_since_start r); rec_x r; rec_y r;
   rec_dx r; rec_dy r; CInt (rec_ms_since_button_event r);
   CStr (rec_combat_state r); CInt (rec_scroll_near_click r);
   CStr (rec_event r)].

(** The buffer of [f] reaches the file. *)
Definition write_out (f : FileObj) (self : State) : State :=
  set_f (Some {| pending := []; closed := false |})
    (set_disk (option_map (fun d => d ++ pending f) (disk self)) self).

(** [self._csv.writerow(row)]: the writer appends to the buffer of the file
    object it was made on, which may then write itself out; a closed file
    object refuses the row, and the object is closed once [_f] is [None]. *)
Definition writerow (env : Env) (w : Writer) (row : Row) (self : State)
    : outcome * State :=
  match _f self with
  | Some f =>
      if closed f then (Raised ValueError, self)
      else
        let f := {| pending := pending f ++ [row]; closed := false |} in
        if buffer_spills env then (Returned, write_out f self)
        else (Returned, set_f (Some f) self)
  | None => (Raised ValueError, self)
  end.

(** The body [self._f.flush(); os.fsync(self._f.fileno())] of the two
    guarded blocks. *)
Definition flush_and_fsync (env : Env) (self : State) : outcome * State :=
  match _f self with
  | None => (Raised ValueError, self)
  | Some f =>
      if closed f then (Raised ValueError, self)
      else if flush_raises env then (Raised OSError, self)
      else
        let self := write_out f self in
        if fsync_raises env then (Raised OSError, self)
        else (Returned, self)
  end.

(** [try: ... except Exception: pass]. *)
Definition try_pass (r : outcome * State) : State := snd r.

Definition _write_row (env : Env) (r : EventRecord) (self : State)
    : outcome * State :=
  match _csv self with
  | None => (Returned, self)
  | Some w =>
      match writerow env w (row_of r) self with
      | (Raised e, self) => (Raised e, self)
      | (Returned, self) =>
          let self :=
            match put_nowait r (event_queue self) with
            | Some q => set_event_queue q self
            | None => self                    (* except queue.Full: pass *)
            end in
          let t := time_time env in
          let self :=
            if PrimFloat.ltb 0.5%float (PrimFloat.sub t (_last_flush self))
            then set_last_flush t (try_pass (flush_and_fsync env self))
            else self in
          (Returned, self)
      end
  end.

(** ** Event enricher *)

(** [_on_click] up to its call of [_write_row]. *)
Definition click_record (env : Env) (x y : Z) (button : Button)
    (pressed : bool) (self : State) : State * EventRecord :=
  let evt := (name button ++ (if pressed then "Down" else "Up"))%string in
  let now_ms := _ts_ms env in
  let ms_since_start :=
    match start_ms self with None => 0 | Some s => now_ms - s end in
  let self :=
    if String.eqb (name button) "left" && pressed
    then _record_lmb_down now_ms self else self in
  let self := set_last_btn_ts_ms (Some now_ms) self in
  let ms_since_button_event := 0 in
  let scroll_near_click := 0 in
  let (self, combat_state) := _combat_state now_ms self in
  let '(x, y, dx, dy) :=
    if negb (_coords_enabled self) then (blank, blank, blank, blank)
    else (CInt x, CInt y, CInt 0, CInt 0) in
  (self,
   mkEventRecord (_ts_iso env) ms_since_start x y dx dy evt
     ms_since_button_event scroll_near_click combat_state).

Definition _on_click (env : Env) (x y : Z) (button : Button)
    (pressed : bool) (self : State) : outcome * State :=
  let (self, r) := click_record env x y button pressed self in
  _write_row env r self.

(** [_on_scroll] up to its call of [_write_row]. *)
Definition scroll_record (env : Env) (x y dx dy : Z) (self : State)
    : State * EventRecord :=
  let evt :=
    if 0 <? dy then "WheelUp"%string
    else if dy <? 0 then "WheelDown"%string else "Wheel"%string in
  let now_ms := _ts_ms env in
  let ms_since_start :=
    match start_ms self with None => 0 | Some s => now_ms - s end in
  let ms_since_button_event :=
    match _last_btn_ts_ms self with None => 0 | Some b => now_ms - b end in
  let scroll_near_click :=
    match _last_btn_ts_ms self with
    | Some _ =>
        if (0 <=? ms_since_button_event)
           && (ms_since_button_event <=? _near_click_ms self)
        then 1 else 0
    | None => 0
    end in
  let (self, combat_state) := _combat_state now_ms self in
  let '(x, y, dx, dy) :=
    if negb (_coords_enabled self) then (blank, blank, blank, blank)
    else (CInt x, CInt y, CInt dx, CInt dy) in
  (self,
   mkEventRecord (_ts_iso env) ms_since_start x y dx dy evt
     ms_since_button_event scroll_near_click combat_state).

Definition _on_scroll (env : Env) (x y dx dy : Z) (self : State)
    : outcome * State :=
  let (self, r) := scroll_record env x y dx dy self in
  _write_row env r self.

(** ** Capture session *)

(** [os.path.exists(self.filepath)]. *)
Definition path_exists (self : State) : bool :=
  match disk self with Some _ => true | None => false end.

(** [os.path.getsize(self.filepath) == 0]: every row ends with a line
    terminator, so the file has size 0 exactly when it holds no row. *)
Definition getsize_is_0 (self : State) : bool :=
  match disk self with Some [] => true | _ => false end.

(** [open(self.filepath, "a", ...)]: creates the file when it is absent;
    when it raises (a missing directory, a path that cannot be written)
    nothing is assigned. *)
Definition open_append (env : Env) (self : State) : outcome * State :=
  if open_raises env then (Raised OSError, self)
  else
    (Returned,
     set_f (Some {| pending := []; closed := false |})
       (set_disk (Some (match disk self with Some d => d | None => [] end))
          self)).

Definition start (env : Env) (self : State) : outcome * State :=
  match listener self with
  | Some _ => (Returned, self)
  | None =>
      let new_file := negb (path_exists self) || getsize_is_0 self in
      match open_append env self with
      | (Raised e, self) => (Raised e, self)
      | (Returned, self) =>
          let self := set_csv (Some csv_writer) self in
          let r :=
            if new_file then
              match writerow env csv_writer HEADER self with
              | (Raised e, self) => (Raised e, self)
              | (Returned, self) =>
                  match _f self with                       (* _f.flush() *)
                  | Some f =>
                      if flush_raises env then (Raised OSError, self)
                      else (Returned, write_out f self)
                  | None => (Raised ValueError, self)
                  end
              end
            else (Returned, self) in
          match r with
          | (Raised e, self) => (Raised e, self)
          | (Returned, self) =>
              let self := set_start_ms (Some (_ts_ms env)) self in
              let self := set_listener (Some {| running := true |}) self in
              (Returned, self)
          end
      end
  end.

(** [self.listener.stop()]. *)
Definition listener_stop (env : Env) (self : State) : outcome * State :=
  if listener_stop_raises env then (Raised OSError, self)
  else (Returned, set_listener (Some {| running := false |}) self).

(** [self._f.close()]: what is buffered reaches the file and the object
    is closed.  When it raises, the object is closed all the same and what
    was buffered is lost.  On a closed object it does nothing. *)
Definition close (env : Env) (f : FileObj) (self : State) : outcome * State :=
  let self := set_n_close (S (n_close self)) self in
  if closed f then (Returned, self)
  else if close_raises env
  then (Raised OSError, set_f (Some {| pending := []; closed := true |}) self)
  else
    (Returned,
     set_f (Some {| pending := []; closed := true |})
       (set_disk (option_map (fun d => d ++ pending f) (disk self)) self)).

Definition stop (env : Env) (self : State) : outcome * State :=
  let self :=
    match listener self with
    | Some _ => set_listener None (try_pass (listener_stop env self))
    | None => self
    end in
  match _f self with
  | Some _ =>
      let self := try_pass (flush_and_fsync env self) in
      let r :=
        match _f self with
        | Some f => close env f self
        | None => (Returned, self)
        end in
      match r with
      | (Raised e, self) => (Raised e, self)
      | (Returned, self) =>
          let self := set_f None self in
          (Returned, set_csv None self)
      end
  | None => (Returned, self)
  end.

(** ** Delivery of events *)

(** One callback of the listener. *)
Definition enrich (env : Env) (ev : Event) (self : State)
    : State * EventRecord :=
  match ev with
  | Click x y button pressed => click_record env x y button pressed self
  | Scroll x y dx dy => scroll_record env x y dx dy self
  end.

Definition callback (env : Env) (ev : Event) (self : State)
    : outcome * State :=
  match ev with
  | Click x y button pressed => _on_click env x y button pressed self
  | Scroll x y dx dy => _on_scroll env x y dx dy self
  end.

(** The callbacks of a sequence of events, each with the environment it
    runs in. *)
Fixpoint run (evs : list (Env * Event)) (self : State) : State :=
  match evs with
  | [] => self
  | (env, ev) :: rest => run rest (snd (callback env ev self))
  end.

(** The records these callbacks hand to [_write_row]. *)
Fixpoint records (evs : list (Env * Event)) (self : State)
    : list EventRecord :=
  match evs with
  | [] => []
  | (env, ev) :: rest =>
      snd (enrich env ev self) :: records rest (snd (callback env ev self))
  end.

(** ** What the properties are stated over *)

(** The readings of [_ts_ms] of a sequence of callbacks. *)
Definition clock (evs : list (Env * Event)) : list Z :=
  map (fun p => _ts_ms (fst p)) evs.

Definition is_lmb_down (ev : Event) : bool :=
  match ev with
  | Click _ _ button pressed => String.eqb (name button) "left" && pressed
  | Scroll _ _ _ _ => false
  end.

Definition is_button (ev : Event) : bool :=
  match ev with
  | Click _ _ _ _ => true
  | Scroll _ _ _ _ => false
  end.

(** The timestamps of the left-button-down events, in order of arrival. *)
Definition downs (evs : list (Env * Event)) : list Z :=
  clock (filter (fun p => is_lmb_down (snd p)) evs).

(** The closed trailing window [[now - 1000, now]]. *)
Definition in_window (now t : Z) : bool :=
  (now - COMBAT_WINDOW_MS <=? t) && (t <=? now).

Definition count_in_window (now : Z) (evs : list (Env * Event)) : nat :=
  List.length (filter (in_window now) (downs evs)).

(** The timestamp of the last button event, if any. *)
Definition last_button (evs : list (Env * Event)) : option Z :=
  match rev (clock (filter (fun p => is_button (snd p)) evs)) with
  | [] => None
  | t :: _ => Some t
  end.

(** The file as a reader sees it once everything buffered is written. *)
Definition contents (self : State) : list Row :=
  match disk self with Some d => d | None => [] end
  ++ match _f self with Some f => pending f | None => [] end.

(** The cell of [row] under the column [col] of [HEADER]. *)
Fixpoint column_of (col : string) (header row : Row) : option Cell :=
  match header, row with
  | h :: header', c :: row' =>
      if Cell_eqb h (CStr col) then Some c else column_of col header' row'
  | _, _ => None
  end.

(** The deque after one callback. *)
Definition tracker_step (now : Z) (ev : Event) (d : list Z) : list Z :=
  let cutoff := now - COMBAT_WINDOW_MS in
  prune cutoff (if is_lmb_down ev then prune cutoff (d ++ [now]) else d).

(** A session whose file is open: the writer and the file exist and the
    file object is not closed. *)
Definition is_open (self : State) : bool :=
  match _csv self, _f self, disk self with
  | Some _, Some f, Some _ => negb (closed f)
  | _, _, _ => false
  end.

(** A bounded queue holds at most [maxsize] items. *)
Definition within_capacity (q : Queue) : Prop :=
  maxsize q <= 0 \/ Z.of_nat (List.length (items q)) <= maxsize q.

(** The column order as the file format documents it. *)
Definition documented_columns : list string :=
  ["timestamp"; "ms_since_start"; "x"; "y"; "dx"; "dy";
   "ms_since_button_event"; "combat_state"; "scroll_near_click";
   "event"]%string.

Definition bind {A B : Type} (o : option A) (k : A -> option B) : option B :=
  match o with Some a => k a | None => None end.

Definition cell_int (c : Cell) : option Z :=
  match c with CInt z => Some z | CStr _ => None end.

Definition cell_str (c : Cell) : option string :=
  match c with CStr s => Some s | CInt _ => None end.

(** A reader of one data row: each field is looked up under its column
    name. *)
Definition read_row (row : Row) : option EventRecord :=
  let col c := column_of c HEADER row in
  bind (bind (col "timestamp"%string) cell_str) (fun ts =>
  bind (bind (col "ms_since_start"%string) cell_int) (fun ms =>
  bind (col "x"%string) (fun x =>
  bind (col "y"%string) (fun y =>
  bind (col "dx"%string) (fun dx =>
  bind (col "dy"%string) (fun dy =>
  bind (bind (col "ms_since_button_event"%string) cell_int) (fun b =>
  bind (bind (col "combat_state"%string) cell_str) (fun c =>
  bind (bind (col "scroll_near_click"%string) cell_int) (fun n =>
  bind (bind (col "event"%string) cell_str) (fun e =>
  Some (mkEventRecord ts ms x y dx dy e b n c))))))))))).

(** ** What [App] does to its logger between callbacks *)

(** [App.on_threshold_changed]: the two thresholds are set on the live
    logger. *)
Definition on_threshold_changed (near_click_ms : Z) (combat_cps : Q)
    (logger : State) : State :=
  set_combat_cps combat_cps (set_near_click_ms near_click_ms logger).

(** [App.on_options_changed]. *)
Definition on_options_changed (coords_enabled : bool) (logger : State)
    : State :=
  set_coords_enabled coords_enabled logger.

(** One [get_nowait] of [App.on_poll_queue]. *)
Definition poll_one (logger : State) : State :=
  match get_nowait (event_queue logger) with
  | Some (_, q) => set_event_queue q logger
  | None => logger
  end.

(** The states a logger goes through: built by [__init__], then started,
    stopped, called back and adjusted in any order. *)
Inductive reachable : State -> Prop :=
| reach_init fp q near cps coords now d :
    reachable (__init__ fp q near cps coords now d)
| reach_start env s :
    reachable s -> reachable (snd (start env s))
| reach_stop env s :
    reachable s -> reachable (snd (stop env s))
| reach_callback env ev s :
    reachable s -> reachable (snd (callback env ev s))
| reach_threshold near cps s :
    reachable s -> reachable (on_threshold_changed near cps s)
| reach_options coords s :
    reachable s -> reachable (on_options_changed coords s)
| reach_poll s :
    reachable s -> reachable (poll_one s).

(** ** Sequences of calls on one logger *)

Inductive Call : Type :=
| CallStart (env : Env)
| CallStop (env : Env)
| CallBack (env : Env) (ev : Event)
| CallThreshold (near_click_ms : Z) (combat_cps : Q)
| CallOptions (coords_enabled : bool)
| CallPoll.

Definition call (c : Call) (self : State) : State :=
  match c with
  | CallStart env => snd (start env self)
  | CallStop env => snd (stop env self)
  | CallBack env ev => snd (callback env ev self)
  | CallThreshold near cps => on_threshold_changed near cps self
  | CallOptions coords => on_options_changed coords self
  | CallPoll => poll_one self
  end.

Fixpoint calls (cs : list Call) (self : State) : State :=
  match cs with
  | [] => self
  | c :: rest => calls rest (call c self)
  end.

(** A cell that is an [int]. *)
Definition is_int (c : Cell) : bool :=
  match c with CInt _ => true | CStr _ => false end.

(** ** The application around the logger *)

Definition DEFAULT_BASENAME : string := "mouse_events".

(** Python's [sub in s] on strings. *)
Fixpoint contains (sub s : string) : bool :=
  String.prefix sub s
  || match s with
     | EmptyString => false
     | String _ s' => contains sub s'
     end.

(** The dict [json.load] gives for the settings file: each of the four keys
    the application reads is present or not, with a value of the type
    [save_settings] writes. *)
Record Settings : Type := {
  get_near_click_ms : option Z;
  get_combat_cps : option Q;
  get_coords_enabled : option bool;
  get_last_log_dir : option string
}.

Inductive SettingsFile : Type :=
| NoFile                 (* os.path.exists(SETTINGS_FILE) is false *)
| Unreadable             (* open or json.load raises *)
| Json (d : Settings).

(** [App.load_settings]. *)
Definition load_settings (f : SettingsFile) : Settings :=
  match f with
  | Json d => d
  | NoFile | Unreadable =>
      {| get_near_click_ms := None; get_combat_cps := None;
         get_coords_enabled := None; get_last_log_dir := None |}
  end.

(** The library functions on paths and text that the application calls. *)
Record OsPath : Type := {
  strip : string -> string;            (* str.strip *)
  dirname : string -> string;          (* os.path.dirname *)
  join : string -> string -> string    (* os.path.join *)
}.

(** What a handler of the application reads from outside. *)
Record UiEnv : Type := {
  ui_calls : Env;              (* for the calls into the logger *)
  strftime : string;           (* datetime.now().strftime("%Y-%m-%d_%H-%M-%S") *)
  getcwd : string;
  save_raises : bool;          (* something in save_settings raises *)
  settings_after_failed_save : SettingsFile
}.

Inductive WidgetState : Type := normal | disabled.

(** A line of the log box: the record it renders, whether the coordinate
    part and the wheel details are shown, the markers and the tags. *)
Record LogLine : Type := {
  line_record : EventRecord;
  line_coords : bool;
  line_wheel : bool;
  line_marker : string;
  line_tags : list string
}.

(** The attributes of [App] the handlers below use, with the names of the
    source, and the part of the environment they act on.  The Tk variables
    hold values of their type; [app_event_queue] is the queue the logger
    is built on. *)
Record App : Type := mkApp {
  app_event_queue : Queue;        (* self.event_queue *)
  logger : option State;
  is_logging : bool;
  near_click_ms : Z;              (* tk.IntVar *)
  combat_cps : Q;                 (* tk.DoubleVar *)
  coords_enabled : bool;          (* tk.BooleanVar *)
  cps_display : Q;                (* the number shown after "CPS: " *)
  file_var : string;
  status_var : string;
  count_var : Z;                  (* the number shown as text *)
  start_btn : WidgetState;
  stop_btn : WidgetState;
  log_box : list LogLine;         (* the lines of the Text widget *)
  event_count : Z;
  (* environment *)
  shown : list string;            (* titles of the message boxes shown *)
  files : string -> option (list Row);       (* the CSV files, by path *)
  settings_file : SettingsFile    (* the file at SETTINGS_FILE *)
}.

Definition upd_app_event_queue (v : Queue) (a : App) : App :=
  mkApp v (logger a) (is_logging a) (near_click_ms a) (combat_cps a)
    (coords_enabled a) (cps_display a) (file_var a) (status_var a)
    (count_var a) (start_btn a) (stop_btn a) (log_box a) (event_count a)
    (shown a) (files a) (settings_file a).

Definition upd_logger (v : option State) (a : App) : App :=
  mkApp (app_event_queue a) v (is_logging a) (near_click_ms a)
    (combat_cps a) (coords_enabled a) (cps_display a) (file_var a)
    (status_var a) (count_var a) (start_btn a) (stop_btn a) (log_box a)
    (event_count a) (shown a) (files a) (settings_file a).

Definition upd_is_logging (v : bool) (a : App) : App :=
  mkApp (app_event_queue a) (logger a) v (near_click_ms a) (combat_cps a)
    (coords_enabled a) (cps_display a) (file_var a) (status_var a)
    (count_var a) (start_btn a) (stop_btn a) (log_box a) (event_count a)
    (shown a) (files a) (settings_file a).

Definition upd_near_click_ms (v : Z) (a : App) : App :=
  mkApp (app_event_queue a) (logger a) (is_logging a) v (combat_cps a)
    (coords_enabled a) (cps_display a) (file_var a) (status_var a)
    (count_var a) (start_btn a) (stop_btn a) (log_box a) (event_count a)
    (shown a) (files a) (settings_file a).

Definition upd_combat_cps (v : Q) (a : App) : App :=
  mkApp (app_event_queue a) (logger a) (is_logging a) (near_click_ms a) v
    (coords_enabled a) (cps_display a) (file_var a) (status_var a)
    (count_var a) (start_btn a) (stop_btn a) (log_box a) (event_count a)
    (shown a) (files a) (settings_file a).

Definition upd_coords_enabled (v : bool) (a : App) : App :=
  mkApp (app_event_queue a) (logger a) (is_logging a) (near_click_ms a)
    (combat_cps a) v (cps_display a) (file_var a) (status_var a)
    (count_var a) (start_btn a) (stop_btn a) (log_box a) (event_count a)
    (shown a) (files a) (settings_file a).

Definition upd_cps_display (v : Q) (a : App) : App :=
  mkApp (app_event_queue a) (logger a) (is_logging a) (near_click_ms a)
    (combat_cps a) (coords_enabled a) v (file_var a) (status_var a)
    (count_var a) (start_btn a) (stop_btn a) (log_box a) (event_count a)
    (shown a) (files a) (settings_file a).

Definition upd_file_var (v : string) (a : App) : App :=
  mkApp (app_event_queue a) (logger a) (is_logging a) (near_click_ms a)
    (combat_cps a) (coords_enabled a) (cps_display a) v (status_var a)
    (count_var a) (start_btn a) (stop_btn a) (log_box a) (event_count a)
    (shown a) (files a) (settings_file a).

Definition upd_status_var (v : string) (a : App) : App :=
  mkApp (app_event_queue a) (logger a) (is_logging a) (near_click_ms a)
    (combat_cps a) (coords_enabled a) (cps_display a) (file_var a) v
    (count_var a) (start_btn a) (stop_btn a) (log_box a) (event_count a)
    (shown a) (files a) (settings_file a).

Definition upd_count_var (v : Z) (a : App) : App :=
  mkApp (app_event_queue a) (logger a) (is_logging a) (near_click_ms a)
    (combat_cps a) (coords_enabled a) (cps_display a) (file_var a)
    (status_var a) v (start_btn a) (stop_btn a) (log_box a) (event_count a)
    (shown a) (files a) (settings_file a).

Definition upd_start_btn (v : WidgetState) (a : App) : App :=
  mkApp (app_event_queue a) (logger a) (is_logging a) (near_click_ms a)
    (combat_cps a) (coords_enabled a) (cps_display a) (file_var a)
    (status_var a) (count_var a) v (stop_btn a) (log_box a) (event_count a)
    (shown a) (files a) (settings_file a).

Definition upd_stop_btn (v : WidgetState) (a : App) : App :=
  mkApp (app_event_queue a) (logger a) (is_logging a) (near_click_ms a)
    (combat_cps a) (coords_enabled a) (cps_display a) (file_var a)
    (status_var a) (count_var a) (start_btn a) v (log_box a) (event_count a)
    (shown a) (files a) (settings_file a).

Definition upd_log_box (v : list LogLine) (a : App) : App :=
  mkApp (app_event_queue a) (logger a) (is_logging a) (near_click_ms a)
    (combat_cps a) (coords_enabled a) (cps_display a) (file_var a)
    (status_var a) (count_var a) (start_btn a) (stop_btn a) v
    (event_count a) (shown a) (files a) (settings_file a).

Definition upd_event_count (v : Z) (a : App) : App :=
  mkApp (app_event_queue a) (logger a) (is_logging a) (near_click_ms a)
    (combat_cps a) (coords_enabled a) (cps_display a) (file_var a)
    (status_var a) (count_var a) (start_btn a) (stop_btn a) (log_box a) v
    (shown a) (files a) (settings_file a).

Definition upd_shown (v : list string) (a : App) : App :=
  mkApp (app_event_queue a) (logger a) (is_logging a) (near_click_ms a)
    (combat_cps a) (coords_enabled a) (cps_display a) (file_var a)
    (status_var a) (count_var a) (start_btn a) (stop_btn a) (log_box a)
    (event_count a) v (files a) (settings_file a).

Definition upd_files (v : (string -> option (list Row))) (a : App) : App :=
  mkApp (app_event_queue a) (logger a) (is_logging a) (near_click_ms a)
    (combat_cps a) (coords_enabled a) (cps_display a) (file_var a)
    (status_var a) (count_var a) (start_btn a) (stop_btn a) (log_box a)
    (event_count a) (shown a) v (settings_file a).

Definition upd_settings_file (v : SettingsFile) (a : App) : App :=
  mkApp (app_event_queue a) (logger a) (is_logging a) (near_click_ms a)
    (combat_cps a) (coords_enabled a) (cps_display a) (file_var a)
    (status_var a) (count_var a) (start_btn a) (stop_btn a) (log_box a)
    (event_count a) (shown a) (files a) v.

(** The logger reads and writes the queue and the files of the
    application: before a call it is given their current value, after the
    call they take the value it leaves. *)
Definition sync_in (app : App) (l : State) : State :=
  set_disk (files app (filepath l)) (set_event_queue (app_event_queue app) l).

Definition sync_out (l : State) (app : App) : App :=
  upd_files
    (fun p => if String.eqb p (filepath l) then disk l else files app p)
    (upd_app_event_queue (event_queue l) (upd_logger (Some l) app)).

(** [App.save_settings]. *)
Definition save_settings (os : OsPath) (env : UiEnv) (app : App) : App :=
  if save_raises env
  then upd_settings_file (settings_after_failed_save env) app
  else
    upd_settings_file
      (Json {| get_near_click_ms := Some (near_click_ms app);
               get_combat_cps := Some (combat_cps app);
               get_coords_enabled := Some (coords_enabled app);
               get_last_log_dir :=
                 Some (if String.eqb (strip os (file_var app)) ""
                       then ""%string
                       else dirname os (strip os (file_var app))) |})
      app.

(** [App.__init__], with the settings file and the CSV files it finds. *)
Definition App_init (os : OsPath) (env : UiEnv) (sf : SettingsFile)
    (fs : string -> option (list Row)) : App :=
  let settings := load_settings sf in
  let default_name :=
    (DEFAULT_BASENAME ++ "_" ++ strftime env ++ ".csv")%string in
  let initial_dir :=
    match get_last_log_dir settings with
    | Some d => if String.eqb d "" then getcwd env else d
    | None => getcwd env
    end in
  let default_path := join os initial_dir default_name in
  mkApp {| maxsize := 2000; items := [] |} None false
    (match get_near_click_ms settings with
     | Some v => v | None => NEAR_CLICK_MS_DEFAULT end)
    (match get_combat_cps settings with
     | Some v => v | None => COMBAT_CPS_DEFAULT end)
    (match get_coords_enabled settings with
     | Some v => v | None => COORDS_ENABLED_DEFAULT end)
    0%Q default_path "Idle" 0 normal disabled [] 0 [] fs sf.

(** [App.on_threshold_changed]. *)
Definition App_on_threshold_changed (os : OsPath) (env : UiEnv) (app : App)
    : App :=
  let app :=
    match logger app with
    | Some l =>
        upd_logger
          (Some (on_threshold_changed (near_click_ms app) (combat_cps app) l))
          app
    | None => app
    end in
  save_settings os env app.

(** [App.on_options_changed]. *)
Definition App_on_options_changed (os : OsPath) (env : UiEnv) (app : App)
    : App :=
  let app :=
    match logger app with
    | Some l => upd_logger (Some (on_options_changed (coords_enabled app) l)) app
    | None => app
    end in
  save_settings os env app.

(** [App.choose_file]; [path] is what the file dialog returns. *)
Definition choose_file (os : OsPath) (env : UiEnv) (path : string) (app : App)
    : App :=
  if String.eqb path "" then app
  else if is_logging app then upd_shown (shown app ++ ["Busy"%string]) app
  else save_settings os env (upd_file_var path app).

(** [App._new_timestamped_path]. *)
Definition _new_timestamped_path (os : OsPath) (env : UiEnv) (app : App)
    : string :=
  let ts_suffix := strftime env in
  let dirpath :=
    if String.eqb (dirname os (strip os (file_var app))) ""
    then getcwd env else dirname os (strip os (file_var app)) in
  let new_name := (DEFAULT_BASENAME ++ "_" ++ ts_suffix ++ ".csv")%string in
  join os dirpath new_name.

(** [App.toggle_logging]. *)
Definition toggle_logging (os : OsPath) (env : UiEnv) (app : App) : App :=
  if negb (is_logging app) then
    let path := strip os (file_var app) in
    if String.eqb path "" then upd_shown (shown app ++ ["Error"%string]) app
    else
      let l :=
        __init__ path (app_event_queue app) (near_click_ms app)
          (combat_cps app) (coords_enabled app) (time_time (ui_calls env))
          (files app path) in
      match start (ui_calls env) l with
      | (Returned, l) =>
          let app := sync_out l app in
          let app := upd_is_logging true app in
          let app := upd_status_var "Logging" app in
          let app := upd_start_btn disabled app in
          upd_stop_btn normal app
      | (Raised e, l) =>
          let app := sync_out l app in
          let app := upd_shown (shown app ++ ["Error"%string]) app in
          upd_logger None app
      end
  else
    let stopped :=
      match logger app with
      | Some l =>
          match stop (ui_calls env) (sync_in app l) with
          | (Returned, l) => (Returned, sync_out l app)
          | (Raised e, l) => (Raised e, sync_out l app)
          end
      | None => (Returned, app)
      end in
    match stopped with
    | (Returned, app) =>
        let app := upd_is_logging false app in
        let app := upd_status_var "Idle" app in
        let app := upd_start_btn normal app in
        let app := upd_stop_btn disabled app in
        let app := upd_file_var (_new_timestamped_path os env app) app in
        save_settings os env app
    | (Raised e, app) => upd_shown (shown app ++ ["Error"%string]) app
    end.

(** The markers and tags [on_poll_queue] gives to a record. *)
Definition markers (r : EventRecord) : string * list string :=
  let evt := rec_event r in
  let combat_status_maker := ""%string in
  let tags : list string := [] in
  let '(combat_status_maker, tags) :=
    if (rec_scroll_near_click r =? 1)
       && (contains "WheelUp" evt || contains "WheelDown" evt)
    then ((combat_status_maker ++ "[SCROLL NEAR LMB]")%string,
          tags ++ ["near"%string])
    else (combat_status_maker, tags) in
  let '(combat_status_maker, tags) :=
    if String.eqb (rec_combat_state r) "combat"
    then ((combat_status_maker ++ "[COMBAT]")%string,
          tags ++ ["combat"%string])
    else (combat_status_maker, tags) in
  let tags := match tags with [] => ["normal"%string] | _ => tags end in
  (combat_status_maker, tags).

(** The body of the loop of [on_poll_queue] for one record taken from the
    queue.  The text of the line is a rendering of the fields kept here;
    the timestamps in the queue are those [_ts_iso] gave, which
    [datetime.fromisoformat] reads back. *)
Definition poll_record (r : EventRecord) (app : App) (cps : Q) : App * Q :=
  let app := upd_event_count (event_count app + 1) app in
  let cps :=
    match logger app with
    | Some l => cps_of (_lmb_down_times l)
    | None => cps
    end in
  let (combat_status_maker, tags) := markers r in
  let line :=
    {| line_record := r; line_coords := coords_enabled app;
       line_wheel := contains "Wheel" (rec_event r);
       line_marker := combat_status_maker; line_tags := tags |} in
  (upd_log_box (log_box app ++ [line]) app, cps).

(** The loop [while True: ... get_nowait() ... except queue.Empty: break]. *)
Fixpoint poll_loop (fuel : nat) (app : App) (updated : bool) (cps : Q)
    : App * bool * Q :=
  match fuel with
  | O => (app, updated, cps)
  | S fuel =>
      match get_nowait (app_event_queue app) with
      | None => (app, updated, cps)
      | Some (r, q) =>
          let (app, cps) := poll_record r (upd_app_event_queue q app) cps in
          poll_loop fuel app true cps
      end
  end.

(** [App.on_poll_queue]. *)
Definition on_poll_queue (app : App) : App :=
  let '(app, updated, cps) :=
    poll_loop (S (List.length (items (app_event_queue app)))) app false 0%Q in
  if updated
  then upd_cps_display cps (upd_count_var (event_count app) app)
  else app.

(** [App.on_close], up to the destruction of the window. *)
Definition on_close (os : OsPath) (env : UiEnv) (app : App) : App :=
  let app :=
    match logger app with
    | Some l => sync_out (snd (stop (ui_calls env) (sync_in app l))) app
    | None => app
    end in
  save_settings os env app.

(** A callback of the listener of the application's logger. *)
Definition deliver (env : Env) (ev : Event) (app : App) : App :=
  match logger app with
  | Some l =>
      match listener l with
      | Some _ => sync_out (snd (callback env ev (sync_in app l))) app
      | None => app
      end
  | None => app
  end.

(** What happens to a running application. *)
Inductive UiAction : Type :=
| ClickStartStop (env : UiEnv)                       (* either button *)
| MouseEvent (env : Env) (ev : Event)
| PollQueue
| SpinThresholds (env : UiEnv) (near_click_ms : Z) (combat_cps : Q)
| CheckCoords (env : UiEnv) (coords_enabled : bool)
| TypePath (text : string)
| Browse (env : UiEnv) (path : string).

Definition ui_step (os : OsPath) (act : UiAction) (app : App) : App :=
  match act with
  | ClickStartStop env => toggle_logging os env app
  | MouseEvent env ev => deliver env ev app
  | PollQueue => on_poll_queue app
  | SpinThresholds env near cps =>
      App_on_threshold_changed os env
        (upd_combat_cps cps (upd_near_click_ms near app))
  | CheckCoords env coords =>
      App_on_options_changed os env (upd_coords_enabled coords app)
  | TypePath text => upd_file_var text app
  | Browse env path => choose_file os env path app
  end.

Fixpoint ui_run (os : OsPath) (acts : list UiAction) (app : App) : App :=
  match acts with
  | [] => app
  | act :: rest => ui_run os rest (ui_step os act app)
  end.

(** The buttons, the flag and the logger agree: while logging the logger
    has a running listener and an open file and only Stop is enabled;
    otherwise there is no listener and no open file and only Start is
    enabled. *)
Definition ui_consistent (app : App) : Prop :=
  match logger app with
  | Some l =>
      if is_logging app
      then listener l <> None /\ _csv l <> None
           /\ (exists f, _f l = Some f /\ closed f = false)
           /\ files app (filepath l) <> None
           /\ start_btn app = disabled /\ stop_btn app = normal
      else listener l = None /\ _csv l = None /\ _f l = None
           /\ start_btn app = normal /\ stop_btn app = disabled
  | None =>
      is_logging app = false
      /\ start_btn app = normal /\ stop_btn app = disabled
  end.

(** A sequence of actions in which no [close()] raises. *)
Definition close_works (act : UiAction) : bool :=
  match act with
  | ClickStartStop env => negb (close_raises (ui_calls env))
  | _ => true
  end.

Definition no_close_failure (acts : list UiAction) : bool :=
  forallb close_works acts.

(** ** The statements that the code does not satisfy as they stand *)

(** The record of an event is ["combat"] exactly when the downs of the
    trailing window reach the threshold, whatever the clock did. *)
Definition combat_state_is_window_rate
    (evs : list (Env * Event)) (env : Env) (ev : Event) (s0 : State) : Prop :=
  let s := run evs s0 in
  let r := snd (enrich env ev s) in
  let n := count_in_window (_ts_ms env) (evs ++ [(env, ev)]) in
  let rate :=
    (inject_Z (Z.of_nat n) / (inject_Z COMBAT_WINDOW_MS / (1000 # 1)))%Q in
  rec_combat_state r = "combat"%string <-> (_combat_cps s <= rate)%Q.

(** After any call of [stop] the listener and the file handle are
    cleared. *)
Definition stop_always_clears (env : Env) (self : State) : Prop :=
  listener (snd (stop env self)) = None /\ _f (snd (stop env self)) = None.


(** [start] called on an active session fails with an error. *)
Definition start_fails_when_active (env : Env) (self : State) : Prop :=
  listener self <> None -> exists e, fst (start env self) = Raised e.

(** The record of a button event has blank [dx] and [dy]. *)
Definition button_deltas_blank (env : Env) (x y : Z) (button : Button)
    (pressed : bool) (self : State) : Prop :=
  let r := snd (click_record env x y button pressed self) in
  rec_dx r = blank /\ rec_dy r = blank.

(** ** Sample inputs *)

Definition at_ms (t : Z) : Env :=
  {| _ts_ms := t; _ts_iso := "";
     time_time :=
       PrimFloat.div (PrimFloat.of_uint63 (Uint63.of_Z t)) 1000%float;
     open_raises := false; buffer_spills := false;
     listener_stop_raises := false; flush_raises := false;
     fsync_raises := false; close_raises := false |}.

Definition lmb_down : Event := Click 0 0 {| name := "left" |} true.

Definition wheel_down : Event := Scroll 0 0 0 (-1).

(** A new [LoggerCore] as [App.toggle_logging] builds it, on a path where
    no file exists yet. *)
Definition fresh : State :=
  __init__ "mouse_events.csv" {| maxsize := 2000; items := [] |}
    NEAR_CLICK_MS_DEFAULT COMBAT_CPS_DEFAULT COORDS_ENABLED_DEFAULT 0%float
    None.

Definition started : State := snd (start (at_ms 0) fresh).

(** Three left-button-downs at 0, 300 and 600 ms. *)
Definition three_downs : list (Env * Event) :=
  [(at_ms 0, lmb_down); (at_ms 300, lmb_down); (at_ms 600, lmb_down)].

(** A started session on a queue of capacity 1, after one event: the queue
    is full. *)
Definition crowded : State :=
  run [(at_ms 10, lmb_down)]
    (snd (start (at_ms 0)
            (__init__ "mouse_events.csv" {| maxsize := 1; items := [] |}
               NEAR_CLICK_MS_DEFAULT COMBAT_CPS_DEFAULT
               COORDS_ENABLED_DEFAULT 0%float None))).

(** ** Sample inputs for the application *)

Definition sample_os : OsPath :=
  {| strip := fun s => s;
     dirname := fun _ => "logs"%string;
     join := fun d n => (d ++ "/" ++ n)%string |}.

Definition ui_at (t : Z) : UiEnv :=
  {| ui_calls := at_ms t; strftime := "2024-01-01_12-00-00";
     getcwd := "home"; save_raises := false;
     settings_after_failed_save := Unreadable |}.

(** The application as it comes up with no settings file and no CSV
    file, and after a click on Start. *)
Definition sample_app : App :=
  App_init sample_os (ui_at 0) NoFile (fun _ => None).

Definition sample_logging_app : App :=
  toggle_logging sample_os (ui_at 0) sample_app.

Definition sample_logger : State :=
  match logger sample_logging_app with Some l => l | None => fresh end.

Definition right_down : Event := Click 0 0 {| name := "right" |} true.

(** A reading of the clock at which [listener.stop()], [flush()] and
    [os.fsync] raise. *)
Definition failing_at (t : Z) : Env :=
  {| _ts_ms := t; _ts_iso := "";
     time_time :=
       PrimFloat.div (PrimFloat.of_uint63 (Uint63.of_Z t)) 1000%float;
     open_raises := false; buffer_spills := false;
     listener_stop_raises := true; flush_raises := true;
     fsync_raises := true; close_raises := false |}.

(** A reading of the clock at which [close()] raises, after a [flush()]
    that raised. *)
Definition close_fails_at (t : Z) : Env :=
  {| _ts_ms := t; _ts_iso := "";
     time_time :=
       PrimFloat.div (PrimFloat.of_uint63 (Uint63.of_Z t)) 1000%float;
     open_raises := false; buffer_spills := false;
     listener_stop_raises := false; flush_raises := true;
     fsync_raises := false; close_raises := true |}.

(** A reading of the clock at which [open] raises. *)
Definition open_fails_at (t : Z) : Env :=
  {| _ts_ms := t; _ts_iso := "";
     time_time :=
       PrimFloat.div (PrimFloat.of_uint63 (Uint63.of_Z t)) 1000%float;
     open_raises := true; buffer_spills := false;
     listener_stop_raises := false; flush_raises := false;
     fsync_raises := false; close_raises := false |}.

(** ** The tracker *)

Section Tracker.

Variable cutoff : Z.

Lemma prune_sorted (d : list Z) :
  StronglySorted Z.le d -> prune cutoff d = filter (fun t => cutoff <=? t) d.
Proof.
  induction 1 as [|t d Hd IH Ht]; simpl; [reflexivity|].
  destruct (Z.ltb_spec t cutoff) as [Hlt|Hge].
  - rewrite IH. destruct (Z.leb_spec cutoff t); [lia|reflexivity].
  - destruct (Z.leb_spec cutoff t); [|lia]. f_equal.
    symmetry. apply forallb_filter_id. apply forallb_forall.
    rewrite Forall_forall in Ht. intros u Hu. apply Z.leb_le.
    specialize (Ht u Hu). lia.
Qed.

Lemma prune_length (d : list Z) :
  (List.length (prune cutoff d) <= List.length d)%nat.
Proof.
  induction d as [|t d IH]; simpl; [lia|].
  destruct (t <? cutoff); simpl; lia.
Qed.

Lemma prune_idem (d : list Z) : prune cutoff (prune cutoff d) = prune cutoff d.
Proof.
  induction d as [|t d IH]; simpl; [reflexivity|].
  destruct (t <? cutoff) eqn:E; [exact IH|]. simpl. rewrite E. reflexivity.
Qed.

End Tracker.

Lemma filter_sorted (p : Z -> bool) (l : list Z) :
  StronglySorted Z.le l -> StronglySorted Z.le (filter p l).
Proof.
  induction 1 as [|t l Hl IH Ht]; simpl; [constructor|].
  destruct (p t); [|exact IH]. constructor; [exact IH|].
  rewrite Forall_forall in *. intros u Hu. apply filter_In in Hu.
  apply Ht, Hu.
Qed.

Lemma filter_filter_le (c0 c : Z) (l : list Z) :
  c0 <= c ->
  filter (fun t => c <=? t) (filter (fun t => c0 <=? t) l)
  = filter (fun t => c <=? t) l.
Proof.
  intros Hc. induction l as [|t l IH]; simpl; [reflexivity|].
  destruct (Z.leb_spec c0 t); simpl.
  - destruct (c <=? t); [f_equal|]; exact IH.
  - destruct (Z.leb_spec c t); [lia|exact IH].
Qed.

Lemma sorted_app_inv (l : list Z) (a : Z) :
  StronglySorted Z.le (l ++ [a]) ->
  StronglySorted Z.le l /\ Forall (fun t => t <= a) l.
Proof.
  induction l as [|t l IH]; simpl; intros H.
  - split; constructor.
  - inversion H as [|? ? Hs Hf]; subst. destruct (IH Hs) as [H1 H2].
    split; constructor; try assumption.
    + apply Forall_app in Hf. apply Hf.
    + apply Forall_app in Hf. destruct Hf as [_ Hf].
      inversion Hf; assumption.
Qed.

Lemma sorted_snoc (l : list Z) (a : Z) :
  StronglySorted Z.le l -> Forall (fun t => t <= a) l ->
  StronglySorted Z.le (l ++ [a]).
Proof.
  induction 1 as [|t l Hl IH Ht]; simpl; intros Hf.
  - repeat constructor.
  - inversion Hf; subst. constructor; [apply IH; assumption|].
    apply Forall_app. split; [assumption|]. repeat constructor. assumption.
Qed.

Lemma cps_of_count (d : list Z) :
  (cps_of d == inject_Z (Z.of_nat (List.length d)))%Q.
Proof. unfold cps_of, COMBAT_WINDOW_MS. field. Qed.

(** ** What the writer leaves alone *)

(** Unfold the file operations and split on what they test. *)
Ltac unfold_io :=
  unfold _write_row, writerow, try_pass, flush_and_fsync, write_out,
    put_nowait, option_map in *.

Ltac rewrite_known :=
  repeat match goal with
         | H : ?a = ?b |- context [?a] =>
             lazymatch a with
             | Some _ => fail
             | None => fail
             | true => fail
             | false => fail
             | context [match _ with _ => _ end] => fail
             | _ => idtac
             end;
             lazymatch b with
             | Some _ => idtac
             | None => idtac
             | true => idtac
             | false => idtac
             end;
             rewrite H
         end.

Ltac unfold_session :=
  unfold start, stop, close, open_append, listener_stop, path_exists,
    getsize_is_0 in *;
  unfold_io.

Ltac simplify_known :=
  repeat (progress (simpl; rewrite_known)).

Ltac case_split :=
  simpl in *; simplify_known;
  repeat (match goal with
          | |- context [match ?x with _ => _ end] =>
              lazymatch x with
              | context [match _ with _ => _ end] => fail
              | _ => idtac
              end;
              match type of x with
              | option _ => destruct x eqn:?
              | bool => destruct x eqn:?
              | list _ => destruct x eqn:?
              end
          end;
          simplify_known).

Ltac crush_write_row :=
  unfold _write_row, writerow, try_pass, flush_and_fsync, write_out;
  repeat match goal with
         | |- context [match ?x with _ => _ end] =>
             match type of x with
             | option _ => destruct x eqn:?
             | bool => destruct x eqn:?
             end; simpl in *
         end;
  try discriminate; auto.

Lemma write_row_frame (env : Env) (r : EventRecord) (s : State) :
  let s' := snd (_write_row env r s) in
  _lmb_down_times s' = _lmb_down_times s
  /\ _last_btn_ts_ms s' = _last_btn_ts_ms s
  /\ _combat_cps s' = _combat_cps s
  /\ _near_click_ms s' = _near_click_ms s
  /\ _coords_enabled s' = _coords_enabled s
  /\ start_ms s' = start_ms s
  /\ listener s' = listener s
  /\ _csv s' = _csv s.
Proof. crush_write_row; repeat split; auto. Qed.

Lemma enrich_lmb (env : Env) (ev : Event) (s : State) :
  _lmb_down_times (fst (enrich env ev s))
  = tracker_step (_ts_ms env) ev (_lmb_down_times s).
Proof.
  destruct ev as [x y b p|x y dx dy]; unfold enrich, tracker_step.
  - unfold click_record, is_lmb_down.
    destruct (String.eqb (name b) "left" && p); simpl;
      destruct (_coords_enabled s); reflexivity.
  - unfold scroll_record; simpl. destruct (_coords_enabled s); reflexivity.
Qed.

Lemma enrich_params (env : Env) (ev : Event) (s : State) :
  let s' := fst (enrich env ev s) in
  _combat_cps s' = _combat_cps s
  /\ _near_click_ms s' = _near_click_ms s
  /\ _coords_enabled s' = _coords_enabled s
  /\ start_ms s' = start_ms s
  /\ _csv s' = _csv s
  /\ _f s' = _f s
  /\ event_queue s' = event_queue s
  /\ disk s' = disk s.
Proof.
  destruct ev as [x y b p|x y dx dy]; unfold enrich.
  - unfold click_record.
    destruct (String.eqb (name b) "left" && p); simpl;
      destruct (_coords_enabled s) eqn:E; simpl; repeat split; auto.
  - unfold scroll_record; simpl.
    destruct (_coords_enabled s) eqn:E; simpl; repeat split; auto.
Qed.

Lemma enrich_last_btn (env : Env) (ev : Event) (s : State) :
  _last_btn_ts_ms (fst (enrich env ev s))
  = if is_button ev then Some (_ts_ms env) else _last_btn_ts_ms s.
Proof.
  destruct ev as [x y b p|x y dx dy]; unfold enrich.
  - unfold click_record.
    destruct (String.eqb (name b) "left" && p); simpl;
      destruct (_coords_enabled s); reflexivity.
  - unfold scroll_record; simpl. destruct (_coords_enabled s); reflexivity.
Qed.

Lemma callback_enrich (env : Env) (ev : Event) (s : State) :
  callback env ev s
  = _write_row env (snd (enrich env ev s)) (fst (enrich env ev s)).
Proof.
  destruct ev; unfold callback, enrich, _on_click, _on_scroll.
  - destruct (click_record env x y button pressed s); reflexivity.
  - destruct (scroll_record env x y dx dy s); reflexivity.
Qed.

Lemma callback_lmb (env : Env) (ev : Event) (s : State) :
  _lmb_down_times (snd (callback env ev s))
  = tracker_step (_ts_ms env) ev (_lmb_down_times s).
Proof.
  rewrite callback_enrich.
  destruct (write_row_frame env (snd (enrich env ev s)) (fst (enrich env ev s)))
    as [H _].
  rewrite H. apply enrich_lmb.
Qed.

Lemma callback_last_btn (env : Env) (ev : Event) (s : State) :
  _last_btn_ts_ms (snd (callback env ev s))
  = if is_button ev then Some (_ts_ms env) else _last_btn_ts_ms s.
Proof.
  rewrite callback_enrich.
  destruct (write_row_frame env (snd (enrich env ev s)) (fst (enrich env ev s)))
    as (_ & H & _).
  rewrite H. apply enrich_last_btn.
Qed.

Lemma run_app (evs1 evs2 : list (Env * Event)) (s : State) :
  run (evs1 ++ evs2) s = run evs2 (run evs1 s).
Proof.
  revert s. induction evs1 as [|[env ev] evs1 IH]; intros s; simpl;
    [reflexivity|apply IH].
Qed.

(** ** The deque along a run *)

Lemma clock_app (evs1 evs2 : list (Env * Event)) :
  clock (evs1 ++ evs2) = clock evs1 ++ clock evs2.
Proof. apply map_app. Qed.

Lemma downs_app (evs1 evs2 : list (Env * Event)) :
  downs (evs1 ++ evs2) = downs evs1 ++ downs evs2.
Proof. unfold downs. rewrite filter_app. apply clock_app. Qed.

Lemma downs_one (env : Env) (ev : Event) :
  downs [(env, ev)] = if is_lmb_down ev then [_ts_ms env] else [].
Proof. unfold downs; simpl. destruct (is_lmb_down ev); reflexivity. Qed.

Lemma downs_in_clock (evs : list (Env * Event)) (t : Z) :
  In t (downs evs) -> In t (clock evs).
Proof.
  unfold downs, clock. rewrite !in_map_iff.
  intros [p [Hp Hin]]. exists p. split; [exact Hp|].
  apply filter_In in Hin. apply Hin.
Qed.

Lemma downs_sorted (evs : list (Env * Event)) :
  StronglySorted Z.le (clock evs) -> StronglySorted Z.le (downs evs).
Proof.
  induction evs as [|[env ev] evs IH]; simpl; intros H; [constructor|].
  inversion H as [|? ? Hs Hf]; subst.
  change (downs ((env, ev) :: evs)) with (downs ([(env, ev)] ++ evs)).
  rewrite downs_app, downs_one.
  destruct (is_lmb_down ev); simpl; [|apply IH, Hs].
  constructor; [apply IH, Hs|].
  rewrite Forall_forall in *. intros t Ht. apply Hf, downs_in_clock, Ht.
Qed.

Lemma last_bounded (l : list Z) (a : Z) :
  Forall (fun t => t <= a) l -> l = [] \/ last l 0 <= a.
Proof.
  induction 1 as [|t l Ht Hl IH]; [left; reflexivity|right].
  destruct l as [|u l]; [exact Ht|].
  destruct IH as [IH|IH]; [discriminate|exact IH].
Qed.

Lemma run_lmb_down_times (evs : list (Env * Event)) (s0 : State) :
  _lmb_down_times s0 = [] ->
  StronglySorted Z.le (clock evs) ->
  _lmb_down_times (run evs s0)
  = filter (fun t => last (clock evs) 0 - COMBAT_WINDOW_MS <=? t) (downs evs).
Proof.
  intros H0. induction evs as [|[env ev] evs IH] using rev_ind; intros Hs.
  - exact H0.
  - rewrite clock_app in Hs. simpl in Hs.
    destruct (sorted_app_inv _ _ Hs) as [Hs' Hle].
    rewrite run_app. simpl run. rewrite callback_lmb, (IH Hs').
    rewrite clock_app, downs_app, downs_one. simpl clock.
    rewrite last_last, filter_app.
    set (now := _ts_ms env) in *.
    set (c0 := last (clock evs) 0 - COMBAT_WINDOW_MS).
    set (c := now - COMBAT_WINDOW_MS).
    assert (Hd : StronglySorted Z.le (downs evs)) by (apply downs_sorted, Hs').
    assert (Hdle : Forall (fun t => t <= now) (downs evs)).
    { rewrite Forall_forall in *. intros t Ht. apply Hle, downs_in_clock, Ht. }
    assert (Hff : filter (fun t => c <=? t) (filter (fun t => c0 <=? t) (downs evs))
                  = filter (fun t => c <=? t) (downs evs)).
    { destruct (last_bounded _ _ Hle) as [He|Hl].
      - destruct evs; [reflexivity|discriminate].
      - apply filter_filter_le. unfold c0, c. lia. }
    unfold tracker_step. fold c.
    destruct (is_lmb_down ev).
    + rewrite prune_idem, prune_sorted.
      * rewrite filter_app, Hff. reflexivity.
      * apply sorted_snoc; [apply filter_sorted, Hd|].
        rewrite Forall_forall in *. intros t Ht. apply filter_In in Ht.
        apply Hdle, Ht.
    + rewrite prune_sorted by (apply filter_sorted, Hd).
      rewrite Hff. simpl. rewrite app_nil_r. reflexivity.
Qed.

(** A read at [now], after the run, leaves exactly the downs of the
    trailing window in the deque. *)
Lemma read_lmb_down_times (evs : list (Env * Event)) (s0 : State) (now : Z) :
  _lmb_down_times s0 = [] ->
  StronglySorted Z.le (clock evs ++ [now]) ->
  prune (now - COMBAT_WINDOW_MS) (_lmb_down_times (run evs s0))
  = filter (in_window now) (downs evs).
Proof.
  intros H0 Hs. destruct (sorted_app_inv _ _ Hs) as [Hs' Hle].
  rewrite (run_lmb_down_times evs s0 H0 Hs').
  assert (Hd : StronglySorted Z.le (downs evs)) by (apply downs_sorted, Hs').
  assert (Hdle : Forall (fun t => t <= now) (downs evs)).
  { rewrite Forall_forall in *. intros t Ht. apply Hle, downs_in_clock, Ht. }
  rewrite prune_sorted by (apply filter_sorted, Hd).
  assert (Hff : filter (fun t => now - COMBAT_WINDOW_MS <=? t)
                  (filter (fun t => last (clock evs) 0 - COMBAT_WINDOW_MS <=? t)
                     (downs evs))
                = filter (fun t => now - COMBAT_WINDOW_MS <=? t) (downs evs)).
  { destruct (last_bounded _ _ Hle) as [He|Hl].
    - destruct evs; [reflexivity|discriminate].
    - apply filter_filter_le. lia. }
  rewrite Hff. apply filter_ext_in. intros t Ht. unfold in_window.
  rewrite Forall_forall in Hdle. specialize (Hdle t Ht).
  destruct (Z.leb_spec t now); [|lia]. rewrite andb_true_r. reflexivity.
Qed.

Lemma tracker_step_window (evs : list (Env * Event)) (env : Env) (ev : Event)
    (s0 : State) :
  _lmb_down_times s0 = [] ->
  StronglySorted Z.le (clock (evs ++ [(env, ev)])) ->
  tracker_step (_ts_ms env) ev (_lmb_down_times (run evs s0))
  = filter (in_window (_ts_ms env)) (downs (evs ++ [(env, ev)])).
Proof.
  intros H0 Hs.
  rewrite <- callback_lmb.
  change (snd (callback env ev (run evs s0)))
    with (run [(env, ev)] (run evs s0)).
  rewrite <- run_app, (run_lmb_down_times _ s0 H0 Hs).
  rewrite clock_app in *. simpl clock in *. rewrite last_last.
  destruct (sorted_app_inv _ _ Hs) as [_ Hle].
  apply filter_ext_in. intros t Ht. unfold in_window.
  assert (t <= _ts_ms env); [|destruct (Z.leb_spec t (_ts_ms env)); [|lia];
                              rewrite andb_true_r; reflexivity].
  apply downs_in_clock in Ht. rewrite clock_app in Ht. simpl in Ht.
  apply in_app_or in Ht. destruct Ht as [Ht|[Ht|[]]]; [|lia].
  rewrite Forall_forall in Hle. apply Hle, Ht.
Qed.

Lemma enrich_combat_state (env : Env) (ev : Event) (s : State) :
  rec_combat_state (snd (enrich env ev s))
  = if Qle_bool (_combat_cps s)
         (cps_of (tracker_step (_ts_ms env) ev (_lmb_down_times s)))
    then "combat"%string else "idle"%string.
Proof.
  destruct ev as [x y b p|x y dx dy]; unfold enrich, tracker_step.
  - unfold click_record, is_lmb_down.
    destruct (String.eqb (name b) "left" && p); simpl;
      destruct (_coords_enabled s); reflexivity.
  - unfold scroll_record; simpl. destruct (_coords_enabled s); reflexivity.
Qed.

Lemma run_thresholds (evs : list (Env * Event)) (s0 : State) :
  _near_click_ms (run evs s0) = _near_click_ms s0
  /\ _combat_cps (run evs s0) = _combat_cps s0
  /\ _coords_enabled (run evs s0) = _coords_enabled s0.
Proof.
  revert s0. induction evs as [|[env ev] evs IH]; intros s0; simpl.
  - repeat split.
  - destruct (IH (snd (callback env ev s0))) as (H1 & H2 & H3).
    rewrite H1, H2, H3, callback_enrich.
    destruct (write_row_frame env (snd (enrich env ev s0))
                (fst (enrich env ev s0))) as (_ & _ & F1 & F2 & F3 & _).
    destruct (enrich_params env ev s0) as (E1 & E2 & E3 & _).
    rewrite F1, F2, F3, E1, E2, E3. repeat split.
Qed.

(** ** The claims *)

(** C2 (as the code has it). For an event observed at time [now], after
    any sequence of events with non-decreasing clock readings (the clock
    of the source can step back, and then the deque is no longer the
    window), the record's [combat_state] is
    ["combat"] exactly when the number of left-button-down timestamps in
    [[now - 1000, now]], divided by the window length in seconds (which is
    that number itself), is at least the configured threshold, which the
    callbacks leave as it was set; it is ["idle"] otherwise. *)
Theorem combat_state_iff_window_rate
    (evs : list (Env * Event)) (env : Env) (ev : Event) (s0 : State) :
  _lmb_down_times s0 = [] ->
  StronglySorted Z.le (clock (evs ++ [(env, ev)])) ->
  let s := run evs s0 in
  let r := snd (enrich env ev s) in
  let n := count_in_window (_ts_ms env) (evs ++ [(env, ev)]) in
  let rate :=
    (inject_Z (Z.of_nat n) / (inject_Z COMBAT_WINDOW_MS / (1000 # 1)))%Q in
  (rate == inject_Z (Z.of_nat n))%Q
  /\ (rec_combat_state r = "combat"%string <-> (_combat_cps s <= rate)%Q)
  /\ (~ (_combat_cps s <= rate)%Q -> rec_combat_state r = "idle"%string)
  /\ _combat_cps s = _combat_cps s0.
Proof.
  intros H0 Hs s r n rate.
  cut ((rate == inject_Z (Z.of_nat n))%Q
       /\ (rec_combat_state r = "combat"%string <-> (_combat_cps s <= rate)%Q)
       /\ (~ (_combat_cps s <= rate)%Q -> rec_combat_state r = "idle"%string)).
  { intros (A & B & C). repeat split; try assumption; try apply B.
    apply (run_thresholds evs s0). }
  assert (Hr : rec_combat_state r
               = if Qle_bool (_combat_cps s) rate
                 then "combat"%string else "idle"%string).
  { unfold r, s. rewrite enrich_combat_state.
    rewrite (tracker_step_window evs env ev s0 H0 Hs). reflexivity. }
  split; [apply (cps_of_count (filter _ _))|].
  rewrite Hr. destruct (Qle_bool (_combat_cps s) rate) eqn:E.
  - apply Qle_bool_iff in E. repeat split; auto. intros H; contradiction.
  - assert (~ (_combat_cps s <= rate)%Q).
    { intros H. apply Qle_bool_iff in H. congruence. }
    repeat split; auto; [discriminate|contradiction].
Qed.

Lemma last_button_snoc (evs : list (Env * Event)) (env : Env) (ev : Event) :
  last_button (evs ++ [(env, ev)])
  = if is_button ev then Some (_ts_ms env) else last_button evs.
Proof.
  unfold last_button. rewrite filter_app, clock_app, rev_app_distr. simpl.
  destruct (is_button ev); simpl; reflexivity.
Qed.

Lemma run_last_btn_ts_ms (evs : list (Env * Event)) (s0 : State) :
  _last_btn_ts_ms s0 = None ->
  _last_btn_ts_ms (run evs s0) = last_button evs.
Proof.
  intros H0. induction evs as [|[env ev] evs IH] using rev_ind.
  - exact H0.
  - rewrite run_app, last_button_snoc. simpl run.
    rewrite callback_last_btn, IH. reflexivity.
Qed.

(** C3. For a wheel event at time [now], after any sequence of events of
    the session, [scroll_near_click] is 1 (and is written as the cell [1])
    exactly when the sequence holds a button event and the last one, at
    [t], has [0 <= now - t <= near_click_ms], for the threshold as it was
    set; in every other case, also when there was no button event, it
    is 0. *)
Theorem scroll_near_click_iff
    (evs : list (Env * Event)) (env : Env) (x y dx dy : Z) (s0 : State) :
  _last_btn_ts_ms s0 = None ->
  let s := run evs s0 in
  let r := snd (scroll_record env x y dx dy s) in
  let near :=
    exists t, last_button evs = Some t
              /\ 0 <= _ts_ms env - t <= _near_click_ms s in
  (rec_scroll_near_click r = 1 <-> near)
  /\ (~ near -> rec_scroll_near_click r = 0)
  /\ column_of "scroll_near_click" HEADER (row_of r)
     = Some (CInt (rec_scroll_near_click r))
  /\ _near_click_ms s = _near_click_ms s0.
Proof.
  intros H0 s r near.
  cut ((rec_scroll_near_click r = 1 <-> near)
       /\ (~ near -> rec_scroll_near_click r = 0)
       /\ column_of "scroll_near_click" HEADER (row_of r)
          = Some (CInt (rec_scroll_near_click r))).
  { intros (A & B & C). repeat split; try assumption; try apply A.
    apply (run_thresholds evs s0). }
  assert (Hr : rec_scroll_near_click r
               = match last_button evs with
                 | Some t =>
                     if (0 <=? _ts_ms env - t)
                        && (_ts_ms env - t <=? _near_click_ms s)
                     then 1 else 0
                 | None => 0
                 end).
  { unfold r, s. rewrite <- (run_last_btn_ts_ms evs s0 H0).
    unfold scroll_record; simpl.
    destruct (_coords_enabled (run evs s0)); simpl;
      destruct (_last_btn_ts_ms (run evs s0)); reflexivity. }
  split; [|split; [|reflexivity]]; rewrite Hr; unfold near;
    destruct (last_button evs) as [t|].
  - destruct (Z.leb_spec 0 (_ts_ms env - t));
      destruct (Z.leb_spec (_ts_ms env - t) (_near_click_ms s)); simpl;
      split; try discriminate; try reflexivity;
      try (intros [u [Hu Hb]]; inversion Hu; subst; lia).
    intros _. exists t. split; [reflexivity|lia].
  - split; [discriminate|]. intros [u [Hu _]]. discriminate.
  - intros Hn.
    destruct (Z.leb_spec 0 (_ts_ms env - t));
      destruct (Z.leb_spec (_ts_ms env - t) (_near_click_ms s)); simpl;
      try reflexivity.
    exfalso. apply Hn. exists t. split; [reflexivity|lia].
  - reflexivity.
Qed.

(** C4. For every sequence of events with non-decreasing timestamps, the
    rate read at [now] is the exact number of left-button-downs recorded in
    [[now - 1000, now]]; after the read, and after an insert at [now], the
    deque holds exactly the downs of that window, so it is pruned on both
    accesses, its length is that number, and the rate is never negative. *)
Theorem click_rate_exact
    (evs : list (Env * Event)) (s0 : State) (now : Z) :
  _lmb_down_times s0 = [] ->
  StronglySorted Z.le (clock evs ++ [now]) ->
  let s := run evs s0 in
  let read := fst (_combat_state now s) in
  let ins := _record_lmb_down now s in
  (cps_of (_lmb_down_times read)
   == inject_Z (Z.of_nat (count_in_window now evs)))%Q
  /\ _lmb_down_times read = filter (in_window now) (downs evs)
  /\ _lmb_down_times ins = filter (in_window now) (downs evs ++ [now])
  /\ Forall (fun t => now - COMBAT_WINDOW_MS <= t <= now) (_lmb_down_times read)
  /\ Forall (fun t => now - COMBAT_WINDOW_MS <= t <= now) (_lmb_down_times ins)
  /\ (List.length (_lmb_down_times read) <= List.length (_lmb_down_times s))%nat
  /\ (0 <= cps_of (_lmb_down_times read))%Q.
Proof.
  intros H0 Hs s read ins.
  assert (Hread : _lmb_down_times read = filter (in_window now) (downs evs)).
  { unfold read, s; simpl. apply read_lmb_down_times; assumption. }
  assert (Hins : _lmb_down_times ins
                 = filter (in_window now) (downs evs ++ [now])).
  { pose (env := at_ms now).
    pose (ev := Click 0 0 {| name := "left" |} true).
    assert (Hs' : StronglySorted Z.le (clock (evs ++ [(env, ev)])))
      by (rewrite clock_app; exact Hs).
    pose proof (tracker_step_window evs env ev s0 H0 Hs') as Ht.
    rewrite downs_app, downs_one in Ht. simpl in Ht.
    rewrite <- Ht. unfold tracker_step; simpl. rewrite prune_idem.
    reflexivity. }
  assert (Hw : forall l, Forall (fun t => now - COMBAT_WINDOW_MS <= t <= now)
                           (filter (in_window now) l)).
  { intros l. apply Forall_forall. intros t Ht. apply filter_In in Ht.
    destruct Ht as [_ Ht]. unfold in_window in Ht.
    apply andb_true_iff in Ht. destruct Ht as [H1 H2].
    apply Z.leb_le in H1, H2. lia. }
  repeat split.
  - rewrite cps_of_count, Hread. reflexivity.
  - exact Hread.
  - exact Hins.
  - rewrite Hread. apply Hw.
  - rewrite Hins. apply Hw.
  - unfold read; simpl. apply prune_length.
  - rewrite cps_of_count. change 0%Q with (inject_Z 0).
    rewrite <- Zle_Qle. lia.
Qed.

(** ** The writer *)

Lemma write_row_open (env : Env) (r : EventRecord) (s : State) :
  is_open s = true ->
  fst (_write_row env r s) = Returned
  /\ contents (snd (_write_row env r s)) = contents s ++ [row_of r]
  /\ is_open (snd (_write_row env r s)) = true
  /\ n_close (snd (_write_row env r s)) = n_close s.
Proof.
  unfold is_open, contents. intros H.
  destruct (_csv s) eqn:Hc; [|discriminate].
  destruct (_f s) as [f|] eqn:Hf; [|discriminate].
  destruct (disk s) eqn:Hd; [|discriminate].
  destruct (closed f) eqn:Hcl; [discriminate|].
  unfold_io.
  case_split; rewrite ?app_nil_r, ?app_assoc; repeat split; auto;
    congruence.
Qed.

Lemma enrich_open (env : Env) (ev : Event) (s : State) :
  is_open (fst (enrich env ev s)) = is_open s
  /\ contents (fst (enrich env ev s)) = contents s
  /\ n_close (fst (enrich env ev s)) = n_close s.
Proof.
  destruct (enrich_params env ev s) as (_ & _ & _ & _ & Hc & Hf & _ & Hd).
  unfold is_open, contents. rewrite Hc, Hf, Hd. repeat split.
  destruct ev as [x y b p|x y dx dy]; unfold enrich.
  - unfold click_record.
    destruct (String.eqb (name b) "left" && p); simpl;
      destruct (_coords_enabled s); reflexivity.
  - unfold scroll_record; simpl. destruct (_coords_enabled s); reflexivity.
Qed.

Lemma callback_open (env : Env) (ev : Event) (s : State) :
  is_open s = true ->
  fst (callback env ev s) = Returned
  /\ contents (snd (callback env ev s))
     = contents s ++ [row_of (snd (enrich env ev s))]
  /\ is_open (snd (callback env ev s)) = true.
Proof.
  intros H. rewrite callback_enrich.
  destruct (enrich_open env ev s) as (Ho & Hc & _).
  rewrite <- Ho in H.
  destruct (write_row_open env (snd (enrich env ev s)) _ H) as (R & C & O & _).
  rewrite R, C, O, Hc. repeat split.
Qed.

Lemma run_open (evs : list (Env * Event)) (s : State) :
  is_open s = true ->
  contents (run evs s) = contents s ++ map row_of (records evs s)
  /\ is_open (run evs s) = true.
Proof.
  revert s. induction evs as [|[env ev] evs IH]; intros s H; simpl.
  - rewrite app_nil_r. split; [reflexivity|exact H].
  - destruct (callback_open env ev s H) as (_ & C & O).
    destruct (IH _ O) as [C' O']. rewrite C', C, <- app_assoc.
    split; [reflexivity|exact O'].
Qed.

Lemma stop_disk (env : Env) (s : State) :
  is_open s = true -> close_raises env = false ->
  disk (snd (stop env s)) = Some (contents s).
Proof.
  unfold is_open, contents. intros H Hcr.
  destruct (_csv s) eqn:Hc; [|discriminate].
  destruct (_f s) as [f|] eqn:Hf; [|discriminate].
  destruct (disk s) eqn:Hd; [|discriminate].
  destruct (closed f) eqn:Hcl; [discriminate|].
  unfold_session.
  case_split; rewrite ?app_nil_r; try reflexivity; congruence.
Qed.

Lemma records_length (evs : list (Env * Event)) (s : State) :
  List.length (records evs s) = List.length evs.
Proof.
  revert s. induction evs as [|[env ev] evs IH]; intros s; simpl;
    [reflexivity|rewrite IH; reflexivity].
Qed.

Lemma read_row_of (r : EventRecord) : read_row (row_of r) = Some r.
Proof. destruct r; reflexivity. Qed.

Lemma row_of_not_header (r : EventRecord) : row_of r <> HEADER.
Proof. unfold row_of, HEADER; simpl. intros H. discriminate H. Qed.

(** C5. Every row handed to the CSV writer has the cells of its record
    under the columns of the documented order (which is [HEADER]); a
    session that writes the records of N events appends N rows, in order,
    they are all in the file once the session is stopped by a [stop] whose
    [close()] does not raise, and reading each row back by column gives
    the record. *)
Theorem csv_rows_round_trip (evs : list (Env * Event)) (s : State) :
  is_open s = true ->
  let recs := records evs s in
  let written := map row_of recs in
  HEADER = map CStr documented_columns
  /\ Forall
       (fun r =>
          map (fun c => column_of c HEADER (row_of r)) documented_columns
          = [Some (CStr (rec_ts_iso r)); Some (CInt (rec_ms_since_start r));
             Some (rec_x r); Some (rec_y r); Some (rec_dx r);
             Some (rec_dy r); Some (CInt (rec_ms_since_button_event r));
             Some (CStr (rec_combat_state r));
             Some (CInt (rec_scroll_near_click r));
             Some (CStr (rec_event r))]
          /\ List.length (row_of r) = List.length HEADER)
       recs
  /\ contents (run evs s) = contents s ++ written
  /\ (forall env, close_raises env = false ->
                  disk (snd (stop env (run evs s)))
                  = Some (contents s ++ written))
  /\ List.length written = List.length evs
  /\ map read_row written = map Some recs.
Proof.
  intros H recs written. split; [reflexivity|]. split.
  - apply Forall_forall. intros r _. split; reflexivity.
  - destruct (run_open evs s H) as [C O]. split; [exact C|]. split; [|split].
    + intros env Hcr. rewrite (stop_disk env _ O Hcr), C. reflexivity.
    + unfold written, recs. rewrite length_map. apply records_length.
    + unfold written. rewrite map_map. apply map_ext. apply read_row_of.
Qed.

(** ** The session *)

Lemma start_idle (env : Env) (s : State) :
  listener s = None -> fst (start env s) = Returned ->
  is_open (snd (start env s)) = true
  /\ contents (snd (start env s))
     = match disk s with
       | Some (row :: d) => row :: d
       | _ => [HEADER]
       end.
Proof.
  intros Hl. unfold is_open, contents. unfold_session.
  case_split; rewrite ?app_nil_r; intros R; try discriminate R;
    repeat split; auto; congruence.
Qed.

Lemma start_open_raises (env : Env) (s : State) :
  listener s = None -> open_raises env = true ->
  start env s = (Raised OSError, s).
Proof. intros Hl Ho. unfold start, open_append. rewrite Hl, Ho. reflexivity. Qed.

Lemma start_returns (env : Env) (s : State) :
  listener s = None ->
  (fst (start env s) = Returned
   <-> open_raises env = false
       /\ (disk s = None \/ disk s = Some [] -> flush_raises env = false)).
Proof.
  intros Hl. unfold_session.
  case_split; split; try discriminate; try reflexivity;
    try (intros _; split; [reflexivity|intros [H|H]; congruence]);
    intros [H1 H2]; try discriminate H1;
    assert (H : true = false) by (apply H2; auto); discriminate H.
Qed.

Lemma start_works (env : Env) (s : State) :
  listener s = None -> open_raises env = false -> flush_raises env = false ->
  fst (start env s) = Returned.
Proof.
  intros Hl Ho Hf. apply (start_returns env s Hl). split; [exact Ho|].
  intros _. exact Hf.
Qed.

(** C6. A [start] of an idle session returns exactly when [open] does not
    raise and, for a file that is absent or empty, the [flush()] after the
    header row does not raise either; when [open] raises nothing is
    written and the session is left as it was.  On a [start] that returns,
    a file that is absent or empty gets exactly one header row, ahead of
    every data row; a file that already holds rows gets the data rows
    appended and no header row. *)
Theorem header_written_once
    (env : Env) (evs : list (Env * Event)) (s : State) :
  listener s = None ->
  _f s = None ->
  let s1 := snd (start env s) in
  let data := map row_of (records evs s1) in
  (fst (start env s) = Returned
   <-> open_raises env = false
       /\ (disk s = None \/ disk s = Some [] -> flush_raises env = false))
  /\ (open_raises env = true -> start env s = (Raised OSError, s))
  /\ (fst (start env s) = Returned ->
      (disk s = None \/ disk s = Some [] ->
       contents s1 = [HEADER] /\ contents (run evs s1) = HEADER :: data)
      /\ (forall d, disk s = Some d -> d <> [] ->
          contents s1 = d /\ contents (run evs s1) = d ++ data))
  /\ ~ In HEADER data.
Proof.
  intros Hl _ s1 data.
  split; [apply start_returns, Hl|].
  split; [apply start_open_raises, Hl|]. split.
  - intros R.
    destruct (start_idle env s Hl R) as (O & C). fold s1 in O, C.
    destruct (run_open evs s1 O) as [Crun _]. fold data in Crun. split.
    + intros [Hd|Hd]; rewrite Hd in C; rewrite Crun, C; split; reflexivity.
    + intros d Hd Hne. rewrite Hd in C. destruct d as [|row d]; [congruence|].
      rewrite Crun, C. split; reflexivity.
  - unfold data. rewrite in_map_iff. intros [r [Hr _]].
    exact (row_of_not_header r Hr).
Qed.

Lemma write_row_queue (env : Env) (r : EventRecord) (s : State) :
  let q := event_queue s in
  let q' := event_queue (snd (_write_row env r s)) in
  q' = q
  \/ (full q = false
      /\ q' = {| maxsize := maxsize q; items := items q ++ [r] |}).
Proof.
  unfold_io. case_split; auto.
Qed.

Lemma put_within_capacity (q : Queue) (r : EventRecord) :
  full q = false ->
  within_capacity {| maxsize := maxsize q; items := items q ++ [r] |}.
Proof.
  unfold full, within_capacity; simpl. intros H.
  apply andb_false_iff in H. rewrite length_app; simpl.
  destruct H as [H|H]; [apply Z.ltb_ge in H|apply Z.leb_gt in H]; lia.
Qed.

Lemma callback_queue (env : Env) (ev : Event) (s : State) :
  within_capacity (event_queue s) ->
  within_capacity (event_queue (snd (callback env ev s)))
  /\ maxsize (event_queue (snd (callback env ev s))) = maxsize (event_queue s).
Proof.
  intros H. rewrite callback_enrich.
  destruct (enrich_params env ev s) as (_ & _ & _ & _ & _ & _ & Hq & _).
  destruct (write_row_queue env (snd (enrich env ev s)) (fst (enrich env ev s)))
    as [E|[Hf E]]; rewrite E, Hq.
  - split; [exact H|reflexivity].
  - split; [apply put_within_capacity; rewrite <- Hq; exact Hf|reflexivity].
Qed.

(** C8. A record written by an open session while the queue is full is
    not forwarded: [_write_row] returns without raising, the queue is left
    as it was, and the row of the record is appended to the file all the
    same.  No write and no run of callbacks takes a bounded queue beyond
    its capacity, which stays the same. *)
Theorem queue_full_drops_silently (env : Env) (r : EventRecord) (s : State) :
  is_open s = true ->
  full (event_queue s) = true ->
  let s' := snd (_write_row env r s) in
  fst (_write_row env r s) = Returned
  /\ event_queue s' = event_queue s
  /\ contents s' = contents s ++ [row_of r]
  /\ (forall env2 r2 s2,
        within_capacity (event_queue s2) ->
        within_capacity (event_queue (snd (_write_row env2 r2 s2)))
        /\ maxsize (event_queue (snd (_write_row env2 r2 s2)))
           = maxsize (event_queue s2))
  /\ (forall evs s2,
        within_capacity (event_queue s2) ->
        within_capacity (event_queue (run evs s2))).
Proof.
  intros Ho Hfull s'.
  destruct (write_row_open env r s Ho) as (R & C & _).
  split; [exact R|]. split; [|split; [exact C|split]].
  - destruct (write_row_queue env r s) as [E|[Hf _]]; [exact E|congruence].
  - intros env2 r2 s2 H.
    destruct (write_row_queue env2 r2 s2) as [E|[Hf E]]; rewrite E.
    + split; [exact H|reflexivity].
    + split; [apply put_within_capacity, Hf|reflexivity].
  - intros evs. induction evs as [|[env2 ev] evs IH]; intros s2 H; simpl.
    + exact H.
    + apply IH, callback_queue, H.
Qed.

Lemma stop_clears (env : Env) (s : State) :
  listener (snd (stop env s)) = None
  /\ (fst (stop env s) = Returned -> _f (snd (stop env s)) = None)
  /\ (close_raises env = false -> fst (stop env s) = Returned).
Proof.
  unfold_session.
  case_split; repeat split; auto; try discriminate; congruence.
Qed.

Lemma stop_idle (env : Env) (i : State) :
  listener i = None -> _f i = None -> stop env i = (Returned, i).
Proof. intros Hl Hf. unfold stop. rewrite Hl, Hf. reflexivity. Qed.

Lemma write_row_file (env : Env) (r : EventRecord) (s : State) :
  _f (snd (_write_row env r s)) = None <-> _f s = None.
Proof.
  unfold_io. case_split; split; auto; try discriminate; congruence.
Qed.

Lemma stop_writer_file (env : Env) (s : State) :
  (_csv s = None <-> _f s = None) ->
  (_csv (snd (stop env s)) = None <-> _f (snd (stop env s)) = None).
Proof.
  intros H. unfold_session.
  case_split; split; auto; try discriminate; intros E;
    try (apply H in E; congruence); try congruence;
    destruct H as [H1 H2]; try (specialize (H2 eq_refl); congruence);
    try (specialize (H1 eq_refl); congruence).
Qed.

Lemma stop_writer (env : Env) (s : State) :
  (_csv s = None <-> _f s = None) ->
  fst (stop env s) = Returned ->
  _csv (snd (stop env s)) = None.
Proof.
  intros H R. apply (stop_writer_file env s H).
  apply (stop_clears env s), R.
Qed.

Lemma reachable_writer_file (s : State) :
  reachable s -> (_csv s = None <-> _f s = None).
Proof.
  induction 1 as [| env s _ IH | env s _ IH | env ev s _ IH
                  | near cps s _ IH | coords s _ IH | s _ IH ].
  - simpl. tauto.
  - unfold_session. case_split; auto; split; discriminate.
  - apply stop_writer_file, IH.
  - rewrite callback_enrich.
    destruct (write_row_frame env (snd (enrich env ev s))
                (fst (enrich env ev s))) as (_ & _ & _ & _ & _ & _ & _ & C).
    destruct (enrich_params env ev s) as (_ & _ & _ & _ & Ec & Ef & _).
    rewrite C, write_row_file, Ec, Ef. exact IH.
  - exact IH.
  - exact IH.
  - unfold poll_one. destruct (get_nowait (event_queue s)) as [[r q]|];
      exact IH.
Qed.

(** C10. With no CSV writer ([_csv] is [None]) [_write_row] returns at
    once: it does not raise and leaves the whole state, file and queue
    included, as it was; a callback arriving then writes nothing to the
    file, forwards nothing and closes nothing.  The writer is absent in a
    new logger and after every [stop] that returns. *)
Theorem write_row_without_writer
    (env : Env) (r : EventRecord) (ev : Event) (s : State) :
  _csv s = None ->
  _write_row env r s = (Returned, s)
  /\ fst (callback env ev s) = Returned
  /\ disk (snd (callback env ev s)) = disk s
  /\ _f (snd (callback env ev s)) = _f s
  /\ event_queue (snd (callback env ev s)) = event_queue s
  /\ n_close (snd (callback env ev s)) = n_close s
  /\ _csv (snd (callback env ev s)) = None
  /\ (forall fp q near cps coords now d,
        _csv (__init__ fp q near cps coords now d) = None)
  /\ (forall env0 s0,
        reachable s0 -> fst (stop env0 s0) = Returned ->
        _csv (snd (stop env0 s0)) = None).
Proof.
  intros H.
  assert (W : forall r' s', _csv s' = None -> _write_row env r' s' = (Returned, s')).
  { intros r' s' H'. unfold _write_row. rewrite H'. reflexivity. }
  split; [apply W, H|].
  destruct (enrich_params env ev s) as (_ & _ & _ & _ & Hc & Hf & Hq & Hd).
  destruct (enrich_open env ev s) as (_ & _ & Hn).
  rewrite callback_enrich, W by (rewrite Hc; exact H). simpl.
  rewrite Hd, Hf, Hq, Hn, Hc. repeat split; auto.
  intros env0 s0 Hr R. apply stop_writer; [apply reachable_writer_file, Hr|exact R].
Qed.

(** C1 (as the code has it). [start] called while a listener is running
    returns normally and leaves the session as it is. *)
Theorem start_while_active_is_noop (env : Env) (s : State) :
  listener s <> None ->
  start env s = (Returned, s).
Proof.
  intros H. unfold start. destruct (listener s); [reflexivity|congruence].
Qed.

(** C7 (as the code has it). [stop] on an idle session (no listener, no
    file) returns without an error and changes nothing, so the file is not
    closed again.  Every [stop] clears the listener; a [stop] returns
    normally whenever [close()] does not raise, and after a [stop] that
    returns the file handle is cleared too and a second [stop] is such a
    no-op. *)
Theorem stop_idempotent (env env' : Env) (s i : State) :
  listener i = None ->
  _f i = None ->
  stop env i = (Returned, i)
  /\ n_close (snd (stop env i)) = n_close i
  /\ (let s1 := snd (stop env s) in
      listener s1 = None
      /\ (close_raises env = false -> fst (stop env s) = Returned)
      /\ (fst (stop env s) = Returned ->
          _f s1 = None
          /\ stop env' s1 = (Returned, s1)
          /\ n_close (snd (stop env' s1)) = n_close s1)).
Proof.
  intros Hl Hf. rewrite (stop_idle env i Hl Hf).
  split; [reflexivity|]. split; [reflexivity|]. intros s1.
  destruct (stop_clears env s) as (L & F & R). fold s1 in L, F.
  split; [exact L|]. split; [exact R|]. intros Hr.
  rewrite (stop_idle env' s1 L (F Hr)). repeat split; auto.
Qed.

(** C9 (as the code has it). The record of a button event has [dx] and
    [dy] blank when coordinate capture is off and the number zero when it
    is on; the row carries the same cells. *)
Theorem button_deltas_follow_toggle
    (env : Env) (x y : Z) (button : Button) (pressed : bool) (s : State) :
  let r := snd (click_record env x y button pressed s) in
  let d := if _coords_enabled s then CInt 0 else blank in
  rec_dx r = d /\ rec_dy r = d
  /\ column_of "dx" HEADER (row_of r) = Some d
  /\ column_of "dy" HEADER (row_of r) = Some d.
Proof.
  unfold click_record.
  destruct (String.eqb (name button) "left" && pressed); simpl;
    destruct (_coords_enabled s); simpl; repeat split.
Qed.

(** ** The claims at sample inputs *)

Lemma three_downs_sorted :
  StronglySorted Z.le (clock (three_downs ++ [(at_ms 600, wheel_down)])).
Proof. simpl. repeat (constructor; try lia). Qed.

Lemma combat_state_iff_window_rate_witness :
  _lmb_down_times started = []
  /\ rec_combat_state
       (snd (enrich (at_ms 600) wheel_down (run three_downs started)))
     = "combat"%string.
Proof.
  split; [reflexivity|].
  destruct (combat_state_iff_window_rate three_downs (at_ms 600) wheel_down
              started eq_refl three_downs_sorted) as (_ & [_ H] & _).
  apply H. apply Qle_bool_iff. reflexivity.
Defined.

Lemma scroll_near_click_iff_witness :
  _last_btn_ts_ms started = None
  /\ rec_scroll_near_click
       (snd (scroll_record (at_ms 1050) 0 0 0 (-1)
               (run [(at_ms 1000, lmb_down)] started)))
     = 1.
Proof.
  split; [reflexivity|].
  destruct (scroll_near_click_iff [(at_ms 1000, lmb_down)] (at_ms 1050)
              0 0 0 (-1) started eq_refl) as ([_ H] & _).
  apply H. exists 1000. split; [reflexivity|].
  change (0 <= 50 <= 80). lia.
Defined.

Lemma click_rate_exact_witness :
  _lmb_down_times (fst (_combat_state 1600 (run three_downs started))) = [600]
  /\ _lmb_down_times (fst (_combat_state 1601 (run three_downs started))) = [].
Proof.
  split.
  - destruct (click_rate_exact three_downs started 1600 eq_refl)
      as (_ & H & _); [|exact H].
    simpl. repeat (constructor; try lia).
  - destruct (click_rate_exact three_downs started 1601 eq_refl)
      as (_ & H & _); [|exact H].
    simpl. repeat (constructor; try lia).
Defined.

Lemma csv_rows_round_trip_witness :
  is_open started = true
  /\ contents (run [(at_ms 1000, lmb_down)] started)
     = [HEADER;
        [CStr ""; CInt 1000; blank; blank; blank; blank; CInt 0;
         CStr "idle"; CInt 0; CStr "leftDown"]].
Proof.
  split; [reflexivity|].
  destruct (csv_rows_round_trip [(at_ms 1000, lmb_down)] started eq_refl)
    as (_ & _ & H & _).
  exact H.
Defined.

Lemma header_written_once_witness :
  listener fresh = None /\ _f fresh = None
  /\ contents (snd (start (at_ms 0) fresh)) = [HEADER].
Proof.
  split; [reflexivity|]. split; [reflexivity|].
  destruct (header_written_once (at_ms 0) [] fresh eq_refl eq_refl)
    as (_ & _ & H & _).
  destruct (H eq_refl) as [H1 _]. apply H1. left. reflexivity.
Defined.

Lemma queue_full_drops_silently_witness :
  is_open crowded = true /\ full (event_queue crowded) = true
  /\ event_queue
       (snd (_write_row (at_ms 20)
               (snd (enrich (at_ms 20) wheel_down crowded)) crowded))
     = event_queue crowded.
Proof.
  split; [reflexivity|]. split; [reflexivity|].
  destruct (queue_full_drops_silently (at_ms 20)
              (snd (enrich (at_ms 20) wheel_down crowded)) crowded
              eq_refl eq_refl) as (_ & H & _).
  exact H.
Defined.

Lemma write_row_without_writer_witness :
  let stopped := snd (stop (at_ms 5) started) in
  _csv stopped = None
  /\ callback (at_ms 9) lmb_down stopped
     = (Returned, fst (enrich (at_ms 9) lmb_down stopped)).
Proof.
  intros stopped. split; [reflexivity|].
  destruct (write_row_without_writer (at_ms 9)
              (snd (enrich (at_ms 9) lmb_down stopped)) lmb_down
              (fst (enrich (at_ms 9) lmb_down stopped)) eq_refl) as (H & _).
  rewrite callback_enrich. exact H.
Defined.

Lemma start_while_active_is_noop_witness :
  listener started <> None
  /\ start (at_ms 7) started = (Returned, started).
Proof.
  assert (H : listener started <> None) by (simpl; discriminate).
  split; [exact H|]. exact (start_while_active_is_noop (at_ms 7) started H).
Defined.

Lemma stop_idempotent_witness :
  listener fresh = None /\ _f fresh = None
  /\ stop (at_ms 3) fresh = (Returned, fresh).
Proof.
  split; [reflexivity|]. split; [reflexivity|].
  destruct (stop_idempotent (at_ms 3) (at_ms 4) started fresh eq_refl eq_refl)
    as (H & _).
  exact H.
Defined.

(** ** Where the statements fail *)

(** C2 as stated fails: after two left presses read at 5000 ms the clock
    steps back and a wheel event is read at 1000 ms; no press lies in
    [[0, 1000]], yet both are still in the deque and the record is
    ["combat"] for the threshold 2. *)
Lemma combat_state_with_clock_stepping_back :
  ~ combat_state_is_window_rate
      [(at_ms 5000, lmb_down); (at_ms 5000, lmb_down)] (at_ms 1000)
      wheel_down started.
Proof.
  intros [H _].
  assert (C : rec_combat_state
                (snd (enrich (at_ms 1000) wheel_down
                        (run [(at_ms 5000, lmb_down); (at_ms 5000, lmb_down)]
                           started)))
              = "combat"%string) by reflexivity.
  apply H in C. apply Qle_bool_iff in C. vm_compute in C. discriminate C.
Qed.

(** C7 as stated fails: when [close()] raises, [stop] leaves the file
    handle set. *)
Lemma stop_with_failing_close_keeps_file :
  ~ stop_always_clears (close_fails_at 5) started.
Proof. intros [_ H]. vm_compute in H. discriminate H. Qed.

(** C1 as stated fails: on the started session, [start] returns normally. *)
Lemma start_while_active_does_not_fail :
  ~ start_fails_when_active (at_ms 7) started.
Proof.
  intros H. destruct H as [e He]; [simpl; discriminate|].
  vm_compute in He. discriminate He.
Qed.

(** C9 as stated fails: with coordinate capture on, the record of a left
    button press carries the number 0 in [dx]. *)
Lemma button_deltas_zero_when_enabled :
  ~ button_deltas_blank (at_ms 7) 0 0 {| name := "left" |} true
      (on_options_changed true started).
Proof. intros [H _]. vm_compute in H. discriminate H. Qed.

(** ** Further properties of the logger *)

(** *** Elapsed time since the start of the session *)

Lemma enrich_ms_since_start (env : Env) (ev : Event) (s : State) :
  rec_ms_since_start (snd (enrich env ev s))
  = match start_ms s with Some t0 => _ts_ms env - t0 | None => 0 end.
Proof.
  destruct ev as [x y b p|x y dx dy]; unfold enrich.
  - unfold click_record.
    destruct (String.eqb (name b) "left" && p); simpl;
      destruct (_coords_enabled s); reflexivity.
  - unfold scroll_record; simpl. destruct (_coords_enabled s); reflexivity.
Qed.

Lemma callback_start_ms (env : Env) (ev : Event) (s : State) :
  start_ms (snd (callback env ev s)) = start_ms s.
Proof.
  rewrite callback_enrich.
  destruct (write_row_frame env (snd (enrich env ev s)) (fst (enrich env ev s)))
    as (_ & _ & _ & _ & _ & F & _).
  destruct (enrich_params env ev s) as (_ & _ & _ & E & _).
  rewrite F, E. reflexivity.
Qed.

Lemma records_ms_since_start (evs : list (Env * Event)) (s : State) :
  map rec_ms_since_start (records evs s)
  = map (fun now => match start_ms s with Some t0 => now - t0 | None => 0 end)
      (clock evs).
Proof.
  revert s. induction evs as [|[env ev] evs IH]; intros s; simpl;
    [reflexivity|].
  rewrite enrich_ms_since_start, IH, callback_start_ms. reflexivity.
Qed.

Lemma sorted_map_sub (t0 : Z) (l : list Z) :
  StronglySorted Z.le l -> StronglySorted Z.le (map (fun now => now - t0) l).
Proof.
  induction 1 as [|t l Hl IH Ht]; simpl; constructor; [exact IH|].
  rewrite Forall_forall in *. intros u Hu. apply in_map_iff in Hu.
  destruct Hu as [v [Hv Hin]]. specialize (Ht v Hin). lia.
Qed.

Lemma start_sets_start_ms (env : Env) (s : State) :
  listener s = None -> fst (start env s) = Returned ->
  start_ms (snd (start env s)) = Some (_ts_ms env).
Proof.
  intros Hl. unfold_session.
  case_split; intros R; try discriminate R; reflexivity.
Qed.

(** X1. In a session started at clock reading [t0] (by a [start] that
    returns), with later readings that do not decrease, the
    [ms_since_start] of every record is its reading minus [t0]; these
    values are never negative and never decrease from one record to the
    next. *)
Theorem ms_since_start_monotone
    (env0 : Env) (evs : list (Env * Event)) (s : State) :
  listener s = None ->
  fst (start env0 s) = Returned ->
  StronglySorted Z.le (_ts_ms env0 :: clock evs) ->
  let recs := records evs (snd (start env0 s)) in
  map rec_ms_since_start recs = map (fun now => now - _ts_ms env0) (clock evs)
  /\ Forall (fun r => 0 <= rec_ms_since_start r) recs
  /\ StronglySorted Z.le (map rec_ms_since_start recs).
Proof.
  intros Hl Hr Hs recs.
  assert (E : map rec_ms_since_start recs
              = map (fun now => now - _ts_ms env0) (clock evs)).
  { unfold recs.
    rewrite records_ms_since_start, (start_sets_start_ms env0 s Hl Hr).
    reflexivity. }
  inversion Hs as [|? ? Hs' Hf]; subst.
  split; [exact E|]. split.
  - apply Forall_forall. intros r Hin0.
    assert (Hin : In (rec_ms_since_start r) (map rec_ms_since_start recs))
      by (apply in_map, Hin0).
    rewrite E in Hin. apply in_map_iff in Hin. destruct Hin as [t [Ht Hin]].
    rewrite Forall_forall in Hf. specialize (Hf t Hin). lia.
  - rewrite E. apply sorted_map_sub, Hs'.
Qed.

(** *** The pruning loop on any deque *)

(** X2. Whatever the order of the deque, the pruning loop removes exactly
    its longest prefix of entries older than the cutoff: every removed
    entry is older, the first kept entry is not, and no entry at or after
    the cutoff is lost. *)
Theorem prune_longest_stale_prefix (cutoff : Z) (d : list Z) :
  exists stale,
    d = stale ++ prune cutoff d
    /\ Forall (fun t => t < cutoff) stale
    /\ (forall t rest, prune cutoff d = t :: rest -> cutoff <= t)
    /\ filter (fun t => cutoff <=? t) (prune cutoff d)
       = filter (fun t => cutoff <=? t) d.
Proof.
  induction d as [|t d IH]; simpl.
  - exists []. repeat split; auto. intros t rest H. discriminate.
  - destruct (Z.ltb_spec t cutoff) as [Hlt|Hge].
    + destruct IH as (stale & E & F & K & G). exists (t :: stale).
      split; [simpl; f_equal; exact E|]. split; [constructor; assumption|].
      split; [exact K|]. rewrite G.
      destruct (Z.leb_spec cutoff t); [lia|reflexivity].
    + exists []. repeat split; auto.
      intros u rest H. inversion H; subst. exact Hge.
Qed.

(** *** A left press counts itself *)

Lemma prune_snoc (now : Z) (d : list Z) :
  exists front, prune (now - COMBAT_WINDOW_MS) (d ++ [now]) = front ++ [now].
Proof.
  induction d as [|t d IH]; simpl.
  - destruct (Z.ltb_spec now (now - COMBAT_WINDOW_MS)) as [H|H].
    + unfold COMBAT_WINDOW_MS in H. lia.
    + exists []. reflexivity.
  - destruct (t <? now - COMBAT_WINDOW_MS); [exact IH|].
    exists (t :: d). reflexivity.
Qed.

(** X3. With a threshold of at most 1, the record of every left-button
    press is ["combat"], from any state of the logger: the press is put in
    the deque before the rate is read and is never pruned by that read. *)
Theorem left_press_counts_itself
    (env : Env) (x y : Z) (button : Button) (s : State) :
  name button = "left"%string ->
  (_combat_cps s <= 1)%Q ->
  let r := snd (click_record env x y button true s) in
  rec_combat_state r = "combat"%string
  /\ rec_event r = "leftDown"%string.
Proof.
  intros Hn Ht. unfold click_record. rewrite Hn. simpl.
  destruct (prune_snoc (_ts_ms env) (_lmb_down_times s)) as [front E].
  rewrite E.
  assert (Hc : Qle_bool (_combat_cps s)
                 (cps_of (prune (_ts_ms env - COMBAT_WINDOW_MS) (front ++ [_ts_ms env])))
               = true).
  { apply Qle_bool_iff. rewrite cps_of_count.
    destruct (prune_snoc (_ts_ms env) front) as [front' E'].
    assert (E2 : prune (_ts_ms env - COMBAT_WINDOW_MS) (front ++ [_ts_ms env])
                 = front ++ [_ts_ms env]).
    { rewrite <- E. apply prune_idem. }
    rewrite E2, length_app. simpl.
    apply Qle_trans with (1 := Ht). change 1%Q with (inject_Z 1).
    rewrite <- Zle_Qle. lia. }
  destruct (_coords_enabled s); simpl; rewrite Hc; split; reflexivity.
Qed.

(** *** Only left presses make combat *)

Lemma run_no_downs (evs : list (Env * Event)) (s : State) :
  _lmb_down_times s = [] -> downs evs = [] -> _lmb_down_times (run evs s) = [].
Proof.
  revert s. induction evs as [|[env ev] evs IH]; intros s H0 Hd; simpl;
    [exact H0|].
  change ((env, ev) :: evs) with ([(env, ev)] ++ evs) in Hd.
  rewrite downs_app, downs_one in Hd.
  destruct (is_lmb_down ev) eqn:El; [discriminate|].
  apply IH; [|exact Hd].
  rewrite callback_lmb, H0. unfold tracker_step. rewrite El. reflexivity.
Qed.

(** X4. As long as no left-button press has been delivered, every record
    is ["idle"] for a threshold above 0, whatever the buttons, the wheel
    and the clock do: right, middle and released buttons never count. *)
Theorem idle_without_left_press
    (evs : list (Env * Event)) (env : Env) (ev : Event) (s0 : State) :
  _lmb_down_times s0 = [] ->
  downs (evs ++ [(env, ev)]) = [] ->
  (0 < _combat_cps s0)%Q ->
  rec_combat_state (snd (enrich env ev (run evs s0))) = "idle"%string.
Proof.
  intros H0 Hd Ht.
  pose proof (run_no_downs (evs ++ [(env, ev)]) s0 H0 Hd) as Hr.
  rewrite run_app in Hr. simpl in Hr. rewrite callback_lmb in Hr.
  rewrite enrich_combat_state, Hr.
  destruct (run_thresholds evs s0) as (_ & Hc & _). rewrite Hc.
  destruct (Qle_bool (_combat_cps s0) (cps_of [])) eqn:E; [|reflexivity].
  apply Qle_bool_iff in E. rewrite cps_of_count in E. simpl in E.
  exfalso. apply (Qlt_not_le _ _ Ht). exact E.
Qed.

(** *** Flush discipline *)


(** *** The file only grows *)

Lemma write_row_disk (env : Env) (r : EventRecord) (s : State) :
  disk (snd (_write_row env r s)) = disk s
  \/ exists d k, disk s = Some d /\ disk (snd (_write_row env r s)) = Some (d ++ k).
Proof.
  unfold_io.
  case_split; auto; right; rewrite ?app_nil_r;
    eexists; eexists; split; reflexivity.
Qed.

Lemma call_disk (c : Call) (s : State) (d : list Row) :
  disk s = Some d -> exists k, disk (call c s) = Some (d ++ k).
Proof.
  intros Hd.
  assert (Hnil : exists k, Some d = Some (d ++ k))
    by (exists []; rewrite app_nil_r; reflexivity).
  destruct c as [env|env|env ev|near cps|coords|]; simpl.
  - unfold_session. case_split; rewrite <- ?app_assoc; eauto.
  - unfold_session. case_split; rewrite <- ?app_assoc; eauto.
  - rewrite callback_enrich.
    destruct (enrich_params env ev s) as (_ & _ & _ & _ & _ & _ & _ & Ed).
    destruct (write_row_disk env (snd (enrich env ev s)) (fst (enrich env ev s)))
      as [E|(d' & k & E1 & E2)].
    + rewrite E, Ed, Hd. exact Hnil.
    + rewrite Ed, Hd in E1. inversion E1; subst. exists k. exact E2.
  - rewrite Hd. exact Hnil.
  - rewrite Hd. exact Hnil.
  - unfold poll_one. destruct (get_nowait (event_queue s)) as [[r q]|]; simpl;
      rewrite Hd; exact Hnil.
Qed.

(** X6. Through any sequence of calls on a logger ([start], [stop],
    callbacks, threshold and option changes, queue polls) the file is only
    appended to: what it held before is a prefix of what it holds after. *)
Theorem file_append_only (cs : list Call) (s : State) (d : list Row) :
  disk s = Some d ->
  exists k, disk (calls cs s) = Some (d ++ k).
Proof.
  revert s d. induction cs as [|c cs IH]; intros s d Hd; simpl.
  - exists []. rewrite app_nil_r. exact Hd.
  - destruct (call_disk c s d Hd) as [k Hk].
    destruct (IH _ _ Hk) as [k' Hk']. exists (k ++ k').
    rewrite app_assoc. exact Hk'.
Qed.

(** *** Queue order and file order *)

Lemma write_row_open_queue (env : Env) (r : EventRecord) (s : State) :
  is_open s = true ->
  event_queue (snd (_write_row env r s))
  = if full (event_queue s) then event_queue s
    else {| maxsize := maxsize (event_queue s);
            items := items (event_queue s) ++ [r] |}.
Proof.
  unfold is_open. intros H.
  destruct (_csv s) eqn:Hc; [|discriminate].
  destruct (_f s) as [f|] eqn:Hf; [|discriminate].
  destruct (closed f) eqn:Hcl; [destruct (disk s); discriminate|].
  unfold_io. case_split; try reflexivity; congruence.
Qed.

Lemma callback_open_queue (env : Env) (ev : Event) (s : State) :
  is_open s = true ->
  event_queue (snd (callback env ev s))
  = if full (event_queue s) then event_queue s
    else {| maxsize := maxsize (event_queue s);
            items := items (event_queue s) ++ [snd (enrich env ev s)] |}.
Proof.
  intros H. rewrite callback_enrich.
  destruct (enrich_open env ev s) as (Ho & _).
  destruct (enrich_params env ev s) as (_ & _ & _ & _ & _ & _ & Hq & _).
  rewrite write_row_open_queue by (rewrite Ho; exact H).
  rewrite Hq. reflexivity.
Qed.

(** X7. While the queue has room for them (it is unbounded, or its items
    and the new events together do not exceed [maxsize]), an open session
    forwards the record of every event: the queue gains the records in
    order of arrival, which is the order of their rows in the file. *)
Theorem queue_order_is_file_order (evs : list (Env * Event)) (s : State) :
  is_open s = true ->
  maxsize (event_queue s) <= 0
  \/ Z.of_nat (List.length (items (event_queue s)) + List.length evs)
     <= maxsize (event_queue s) ->
  items (event_queue (run evs s)) = items (event_queue s) ++ records evs s
  /\ contents (run evs s) = contents s ++ map row_of (records evs s).
Proof.
  intros Ho Hroom. split; [|apply (run_open evs s Ho)].
  revert s Ho Hroom.
  induction evs as [|[env ev] evs IH]; intros s Ho Hroom; simpl.
  - rewrite app_nil_r. reflexivity.
  - destruct (callback_open env ev s Ho) as (_ & _ & Ho').
    pose proof (callback_open_queue env ev s Ho) as Hq.
    assert (Hnf : full (event_queue s) = false).
    { unfold full. apply andb_false_iff.
      destruct Hroom as [Hm|Hm]; [left; apply Z.ltb_ge; exact Hm|].
      right. apply Z.leb_gt. simpl in Hm. lia. }
    rewrite Hnf in Hq.
    rewrite IH; [| exact Ho' |].
    + rewrite Hq. simpl. rewrite <- app_assoc. reflexivity.
    + rewrite Hq. simpl. rewrite length_app. simpl.
      destruct Hroom as [Hm|Hm]; [left; exact Hm|right]. simpl in Hm. lia.
Qed.

(** *** Sessions on the same file *)

Lemma stop_open (env : Env) (s : State) :
  is_open s = true ->
  close_raises env = false ->
  fst (stop env s) = Returned
  /\ disk (snd (stop env s)) = Some (contents s)
  /\ listener (snd (stop env s)) = None
  /\ _f (snd (stop env s)) = None
  /\ _csv (snd (stop env s)) = None
  /\ n_close (snd (stop env s)) = S (n_close s).
Proof.
  intros H Hcr. destruct (stop_clears env s) as (L & F & R).
  split; [exact (R Hcr)|]. split; [apply stop_disk; assumption|].
  split; [exact L|]. split; [exact (F (R Hcr))|].
  unfold is_open in H.
  destruct (_csv s) eqn:Hc; [|discriminate].
  destruct (_f s) as [f|] eqn:Hf; [|discriminate].
  destruct (closed f) eqn:Hcl; [destruct (disk s); discriminate|].
  unfold_session. case_split; split; try reflexivity; congruence.
Qed.

(** A [stop] whose [close()] raises: the exception leaves [stop] with the
    listener cleared and the file object closed but still referred to. *)
Lemma stop_close_raises (env : Env) (s : State) :
  is_open s = true ->
  close_raises env = true ->
  let s1 := snd (stop env s) in
  fst (stop env s) = Raised OSError
  /\ listener s1 = None
  /\ (exists f, _f s1 = Some f /\ closed f = true)
  /\ _csv s1 = _csv s
  /\ filepath s1 = filepath s.
Proof.
  unfold is_open. intros H Hcr.
  destruct (_csv s) eqn:Hc; [|discriminate].
  destruct (_f s) as [f|] eqn:Hf; [|discriminate].
  destruct (closed f) eqn:Hcl; [destruct (disk s); discriminate|].
  unfold_session.
  case_split; repeat split; eauto; congruence.
Qed.

(** [stop] on a logger whose file object is closed but still referred to:
    it returns, whatever its calls do, and clears the references. *)
Lemma stop_on_closed_file (env : Env) (s : State) (f : FileObj) :
  _f s = Some f -> closed f = true ->
  fst (stop env s) = Returned
  /\ listener (snd (stop env s)) = None
  /\ _f (snd (stop env s)) = None
  /\ _csv (snd (stop env s)) = None
  /\ disk (snd (stop env s)) = disk s
  /\ filepath (snd (stop env s)) = filepath s.
Proof.
  intros Hf Hcl. unfold_session.
  case_split; repeat split; auto; congruence.
Qed.

Lemma run_n_close (evs : list (Env * Event)) (s : State) :
  is_open s = true -> n_close (run evs s) = n_close s.
Proof.
  revert s. induction evs as [|[env ev] evs IH]; intros s H; simpl;
    [reflexivity|].
  destruct (callback_open env ev s H) as (_ & _ & O). rewrite (IH _ O).
  rewrite callback_enrich.
  destruct (enrich_open env ev s) as (Ho & _ & Hn). rewrite <- Ho in H.
  destruct (write_row_open env (snd (enrich env ev s)) _ H) as (_ & _ & _ & N).
  rewrite N, Hn. reflexivity.
Qed.

(** X8. A session that is started (by a [start] in which neither [open]
    nor the [flush()] after the header raises), receives events and is
    stopped by a [stop] whose [close()] does not raise leaves every row in
    the file and closes it exactly once, whatever [listener.stop()],
    [flush()] and [fsync()] do when the session is stopped: [stop] returns
    normally and clears listener, file and writer. *)
Theorem session_closes_once
    (env0 env1 : Env) (evs : list (Env * Event)) (s : State) :
  listener s = None ->
  _f s = None ->
  open_raises env0 = false ->
  flush_raises env0 = false ->
  close_raises env1 = false ->
  let s1 := snd (start env0 s) in
  let s2 := run evs s1 in
  let s3 := snd (stop env1 s2) in
  fst (stop env1 s2) = Returned
  /\ disk s3 = Some (contents s1 ++ map row_of (records evs s1))
  /\ n_close s3 = S (n_close s)
  /\ listener s3 = None /\ _f s3 = None /\ _csv s3 = None.
Proof.
  intros Hl _ Ho Hfl Hcr s1 s2 s3.
  destruct (start_idle env0 s Hl (start_works env0 s Hl Ho Hfl)) as (O1 & _).
  fold s1 in O1.
  destruct (run_open evs s1 O1) as [C2 O2]. fold s2 in C2, O2.
  destruct (stop_open env1 s2 O2 Hcr) as (R & D & L & F & W & N).
  fold s3 in D, L, F, W, N.
  split; [exact R|]. split; [rewrite D, C2; reflexivity|].
  split; [|auto].
  rewrite N. unfold s2. rewrite (run_n_close evs s1 O1). f_equal.
  unfold s1. clear - Hl. unfold_session. case_split; auto.
Qed.

(** X9. Two sessions run one after the other on the same logger, into a
    file that was absent or empty at first, with no [open] and no
    [close()] raising and a first [start] whose [flush()] after the header
    does not raise, leave one header row followed by the rows of the first
    session and then the rows of the second: the second [start] finds the
    file non-empty, writes no header and returns whatever [flush()] would
    do. *)
Theorem header_once_across_sessions
    (e1 e2 e3 e4 : Env) (evs1 evs2 : list (Env * Event)) (s : State) :
  listener s = None ->
  _f s = None ->
  disk s = None \/ disk s = Some [] ->
  open_raises e1 = false -> flush_raises e1 = false ->
  close_raises e2 = false ->
  open_raises e3 = false -> close_raises e4 = false ->
  let a1 := snd (start e1 s) in
  let a3 := snd (stop e2 (run evs1 a1)) in
  let b1 := snd (start e3 a3) in
  let b3 := snd (stop e4 (run evs2 b1)) in
  fst (start e3 a3) = Returned
  /\ disk b3
     = Some (HEADER :: map row_of (records evs1 a1)
               ++ map row_of (records evs2 b1)).
Proof.
  intros Hl _ Hd O1' F1' C2' O3' C4' a1 a3 b1 b3.
  destruct (start_idle e1 s Hl (start_works e1 s Hl O1' F1')) as (O1 & C1).
  fold a1 in O1, C1.
  assert (C1' : contents a1 = [HEADER]).
  { rewrite C1. destruct Hd as [Hd|Hd]; rewrite Hd; reflexivity. }
  destruct (run_open evs1 a1 O1) as [C2 O2].
  destruct (stop_open e2 _ O2 C2') as (_ & D3 & L3 & _). fold a3 in D3, L3.
  rewrite C2, C1' in D3. simpl in D3.
  assert (R3 : fst (start e3 a3) = Returned).
  { apply (start_returns e3 a3 L3). split; [exact O3'|].
    rewrite D3. intros [H|H]; discriminate H. }
  split; [exact R3|].
  destruct (start_idle e3 a3 L3 R3) as (O4 & C4). fold b1 in O4, C4.
  rewrite D3 in C4.
  destruct (run_open evs2 b1 O4) as [C5 O5].
  destruct (stop_open e4 _ O5 C4') as (_ & D6 & _). fold b3 in D6.
  rewrite D6, C5, C4. reflexivity.
Qed.

(** *** Coordinate columns *)

(** X10. In every record the four coordinate and delta fields go together:
    with coordinate capture off they are all blank, with it on they are
    all numbers, the delivered ones for a wheel event and the delivered
    position with zero deltas for a button event. *)
Theorem coordinates_all_or_none (env : Env) (ev : Event) (s : State) :
  let r := snd (enrich env ev s) in
  let cells := [rec_x r; rec_y r; rec_dx r; rec_dy r] in
  (_coords_enabled s = false -> cells = [blank; blank; blank; blank])
  /\ (_coords_enabled s = true ->
      forallb is_int cells = true
      /\ cells = match ev with
                 | Click x y _ _ => [CInt x; CInt y; CInt 0; CInt 0]
                 | Scroll x y dx dy => [CInt x; CInt y; CInt dx; CInt dy]
                 end)
  /\ map (fun c => column_of c HEADER (row_of r)) ["x"; "y"; "dx"; "dy"]%string
     = map Some cells.
Proof.
  destruct ev as [x y b p|x y dx dy]; unfold enrich.
  - unfold click_record.
    destruct (String.eqb (name b) "left" && p); simpl;
      destruct (_coords_enabled s); simpl; repeat split;
      intros; try discriminate; reflexivity.
  - unfold scroll_record; simpl.
    destruct (_coords_enabled s); simpl; repeat split;
      intros; try discriminate; reflexivity.
Qed.

(** ** Properties of the application *)

Lemma enrich_static (env : Env) (ev : Event) (s : State) :
  filepath (fst (enrich env ev s)) = filepath s
  /\ listener (fst (enrich env ev s)) = listener s.
Proof.
  destruct ev as [x y b p|x y dx dy]; unfold enrich.
  - unfold click_record.
    destruct (String.eqb (name b) "left" && p); simpl;
      destruct (_coords_enabled s); split; reflexivity.
  - unfold scroll_record; simpl. destruct (_coords_enabled s); split; reflexivity.
Qed.

Lemma write_row_filepath (env : Env) (r : EventRecord) (s : State) :
  filepath (snd (_write_row env r s)) = filepath s.
Proof. unfold_io. case_split; reflexivity. Qed.

Lemma callback_static (env : Env) (ev : Event) (s : State) :
  filepath (snd (callback env ev s)) = filepath s
  /\ listener (snd (callback env ev s)) = listener s
  /\ _csv (snd (callback env ev s)) = _csv s
  /\ (_f (snd (callback env ev s)) = None <-> _f s = None).
Proof.
  rewrite callback_enrich.
  destruct (enrich_static env ev s) as [Ep El].
  destruct (enrich_params env ev s) as (_ & _ & _ & _ & Ec & Ef & _).
  destruct (write_row_frame env (snd (enrich env ev s)) (fst (enrich env ev s)))
    as (_ & _ & _ & _ & _ & _ & Fl & Fc).
  rewrite write_row_filepath, Ep, Fl, El, Fc, Ec, write_row_file, Ef.
  repeat split; auto.
Qed.

Lemma start_filepath (env : Env) (s : State) :
  filepath (snd (start env s)) = filepath s.
Proof. unfold_session. case_split; reflexivity. Qed.

Lemma stop_filepath (env : Env) (s : State) :
  filepath (snd (stop env s)) = filepath s.
Proof. unfold_session. case_split; reflexivity. Qed.

(** What [ui_consistent] looks at. *)
Lemma ui_consistent_ext (a b : App) :
  logger b = logger a -> is_logging b = is_logging a ->
  (forall p, files b p = files a p) ->
  start_btn b = start_btn a -> stop_btn b = stop_btn a ->
  ui_consistent a -> ui_consistent b.
Proof.
  unfold ui_consistent. intros Hl Hi Hf Hs Ht. rewrite Hl, Hi, Hs, Ht.
  destruct (logger a) as [l|]; [|auto].
  destruct (is_logging a); [|auto]. rewrite Hf. auto.
Qed.

Lemma save_settings_consistent (os : OsPath) (env : UiEnv) (app : App) :
  ui_consistent app -> ui_consistent (save_settings os env app).
Proof.
  apply ui_consistent_ext; unfold save_settings;
    destruct (save_raises env); reflexivity.
Qed.

Lemma poll_loop_frame (fuel : nat) (app : App) (updated : bool) (cps : Q) :
  let app' := fst (fst (poll_loop fuel app updated cps)) in
  logger app' = logger app /\ is_logging app' = is_logging app
  /\ files app' = files app
  /\ start_btn app' = start_btn app /\ stop_btn app' = stop_btn app
  /\ coords_enabled app' = coords_enabled app
  /\ shown app' = shown app /\ settings_file app' = settings_file app
  /\ file_var app' = file_var app.
Proof.
  revert app updated cps. induction fuel as [|fuel IH]; intros app updated cps;
    simpl; [repeat split|].
  destruct (get_nowait (app_event_queue app)) as [[r q]|]; simpl;
    [|repeat split].
  unfold poll_record. destruct (markers r) as [m tags].
  match goal with
  | |- context [poll_loop fuel ?a ?u ?c] =>
      destruct (IH a u c) as (H1 & H2 & H3 & H4 & H5 & H6 & H7 & H8 & H9)
  end.
  rewrite H1, H2, H3, H4, H5, H6, H7, H8, H9. repeat split.
Qed.

Lemma on_poll_queue_frame (app : App) :
  let app' := on_poll_queue app in
  logger app' = logger app /\ is_logging app' = is_logging app
  /\ files app' = files app
  /\ start_btn app' = start_btn app /\ stop_btn app' = stop_btn app.
Proof.
  unfold on_poll_queue.
  pose proof (poll_loop_frame (S (List.length (items (app_event_queue app))))
                app false 0%Q) as H.
  destruct (poll_loop _ app false 0%Q) as [[app' updated] cps].
  simpl in H. destruct H as (H1 & H2 & H3 & H4 & H5 & _).
  destruct updated; simpl; repeat split; assumption.
Qed.

Lemma start_frame (env : Env) (s : State) :
  listener s = None -> fst (start env s) = Returned ->
  let s' := snd (start env s) in
  _lmb_down_times s' = _lmb_down_times s
  /\ _last_btn_ts_ms s' = _last_btn_ts_ms s
  /\ _near_click_ms s' = _near_click_ms s
  /\ _combat_cps s' = _combat_cps s
  /\ _coords_enabled s' = _coords_enabled s
  /\ event_queue s' = event_queue s
  /\ listener s' <> None
  /\ disk s'
     = Some (match disk s with
             | Some (row :: d) => row :: d
             | _ => [HEADER]
             end).
Proof.
  intros Hl. unfold_session.
  case_split; rewrite ?app_nil_r; intros R; try discriminate R;
    repeat split; auto; discriminate.
Qed.

Lemma is_open_parts (s : State) :
  is_open s = true <->
  _csv s <> None /\ (exists f, _f s = Some f /\ closed f = false)
  /\ disk s <> None.
Proof.
  unfold is_open. split.
  - destruct (_csv s); [|discriminate].
    destruct (_f s) as [f|]; [|discriminate].
    destruct (disk s); [|discriminate].
    destruct (closed f) eqn:E; [discriminate|]. intros _.
    repeat split; try discriminate. exists f. split; [reflexivity|exact E].
  - intros (Hc & (f & Hf & E) & Hd). rewrite Hf, E.
    destruct (_csv s); [|contradiction].
    destruct (disk s); [reflexivity|contradiction].
Qed.

Lemma toggle_start (os : OsPath) (env : UiEnv) (app : App) :
  is_logging app = false ->
  String.eqb (strip os (file_var app)) "" = false ->
  let path := strip os (file_var app) in
  let l0 :=
    __init__ path (app_event_queue app) (near_click_ms app)
      (combat_cps app) (coords_enabled app) (time_time (ui_calls env))
      (files app path) in
  let l1 := snd (start (ui_calls env) l0) in
  toggle_logging os env app
  = match fst (start (ui_calls env) l0) with
    | Returned =>
        upd_stop_btn normal
          (upd_start_btn disabled
             (upd_status_var "Logging"
                (upd_is_logging true (sync_out l1 app))))
    | Raised _ =>
        upd_logger None
          (upd_shown (shown (sync_out l1 app) ++ ["Error"%string])
             (sync_out l1 app))
    end.
Proof.
  intros Hi Hp path l0 l1. unfold toggle_logging. rewrite Hi, Hp. simpl negb.
  cbv iota. fold path. fold l0. subst l1.
  destruct (start (ui_calls env) l0) as [[|e] l1]; reflexivity.
Qed.

Lemma consistent_logging_open (app : App) (l : State) :
  ui_consistent app -> is_logging app = true -> logger app = Some l ->
  is_open (sync_in app l) = true /\ listener l <> None.
Proof.
  unfold ui_consistent. intros H Hi Hl. rewrite Hl, Hi in H.
  destruct H as (H1 & H2 & H3 & H4 & _). split; [|exact H1].
  apply is_open_parts. unfold sync_in; simpl. auto.
Qed.

Lemma ui_step_consistent (os : OsPath) (act : UiAction) (app : App) :
  close_works act = true ->
  ui_consistent app -> ui_consistent (ui_step os act app).
Proof.
  intros Hw H.
  destruct act as [env|env ev| |env near cps|env coords|text|env path];
    simpl.
  - (* toggle_logging *)
    simpl in Hw. apply negb_true_iff in Hw.
    destruct (is_logging app) eqn:Hi.
    + unfold toggle_logging. rewrite Hi. simpl negb. cbv iota.
      destruct (logger app) as [l|] eqn:Hl;
        [|unfold ui_consistent in H; rewrite Hl in H; destruct H; congruence].
      destruct (consistent_logging_open app l H Hi Hl) as [Ho _].
      destruct (stop_open (ui_calls env) _ Ho Hw) as (R & _ & L & F & W & _).
      destruct (stop (ui_calls env) (sync_in app l)) as [o l1].
      simpl in R, L, F, W. subst o. apply save_settings_consistent.
      unfold ui_consistent in *. rewrite Hl, Hi in H. simpl. auto.
    + destruct (String.eqb (strip os (file_var app)) "") eqn:Hp.
      * unfold toggle_logging. rewrite Hi, Hp. simpl.
        revert H. apply ui_consistent_ext; reflexivity.
      * rewrite (toggle_start os env app Hi Hp).
        unfold ui_consistent in H. rewrite Hi in H.
        match goal with
        | |- context [start (ui_calls env) ?l] =>
            set (l0 := l);
              pose proof (start_idle (ui_calls env) l0 eq_refl) as O;
              pose proof (start_frame (ui_calls env) l0 eq_refl) as Fr;
              pose proof (start_filepath (ui_calls env) l0) as P
        end.
        destruct (fst (start (ui_calls env) l0)) as [|e].
        -- destruct (O eq_refl) as (O' & _).
           destruct (Fr eq_refl) as (_ & _ & _ & _ & _ & _ & Ls & D).
           apply is_open_parts in O'. destruct O' as (Oc & Of & _).
           unfold ui_consistent; simpl. rewrite P. simpl.
           rewrite String.eqb_refl, D.
           repeat split; auto; discriminate.
        -- unfold ui_consistent; simpl.
           destruct (logger app);
             [destruct H as (_ & _ & _ & H4 & H5)|destruct H as (_ & H4 & H5)];
             repeat split; assumption.
  - (* deliver *)
    unfold deliver. destruct (logger app) as [l|] eqn:Hl; [|exact H].
    destruct (listener l) as [running_listener|] eqn:Hs; [|exact H].
    destruct (is_logging app) eqn:Hi;
      [|unfold ui_consistent in H; rewrite Hl, Hi in H;
        destruct H as (H1 & _); congruence].
    destruct (consistent_logging_open app l H Hi Hl) as [Ho _].
    destruct (callback_open env ev _ Ho) as (_ & _ & O).
    destruct (callback_static env ev (sync_in app l)) as (_ & Cl & _).
    apply is_open_parts in O. destruct O as (Oc & Of & Od).
    unfold ui_consistent in *. rewrite Hl, Hi in H. simpl.
    rewrite Hi, String.eqb_refl, Cl. unfold sync_in at 1; simpl. rewrite Hs.
    destruct H as (_ & _ & _ & _ & H5 & H6).
    repeat split; auto; discriminate.
  - (* on_poll_queue *)
    destruct (on_poll_queue_frame app) as (H1 & H2 & H3 & H4 & H5).
    revert H. apply ui_consistent_ext; auto. intros p. rewrite H3. reflexivity.
  - (* on_threshold_changed *)
    unfold App_on_threshold_changed. apply save_settings_consistent.
    unfold ui_consistent in *. cbn [logger upd_combat_cps upd_near_click_ms].
    destruct (logger app) as [l|] eqn:Hl; simpl; rewrite ?Hl; simpl; exact H.
  - (* on_options_changed *)
    unfold App_on_options_changed. apply save_settings_consistent.
    unfold ui_consistent in *. cbn [logger upd_coords_enabled].
    destruct (logger app) as [l|] eqn:Hl; simpl; rewrite ?Hl; simpl; exact H.
  - revert H. apply ui_consistent_ext; reflexivity.
  - unfold choose_file. destruct (String.eqb path ""); [exact H|].
    destruct (is_logging app) eqn:Hi.
    + revert H. apply ui_consistent_ext; reflexivity.
    + apply save_settings_consistent. revert H.
      apply ui_consistent_ext; reflexivity.
Qed.

(** X11. As long as no [close()] raises when the user clicks Stop, whatever
    the user does (Start/Stop clicks, also with a path that cannot be
    opened, threshold and option changes, typing or browsing a path) and
    whatever mouse events and queue polls come in between, the application
    stays consistent: while it shows itself as logging the logger has a
    running listener and an open file and only Stop is enabled; otherwise
    no listener runs, no file is open and only Start is enabled. *)
Theorem ui_stays_consistent
    (os : OsPath) (env : UiEnv) (sf : SettingsFile)
    (fs : string -> option (list Row)) (acts : list UiAction) :
  no_close_failure acts = true ->
  ui_consistent (ui_run os acts (App_init os env sf fs)).
Proof.
  assert (H0 : ui_consistent (App_init os env sf fs))
    by (unfold ui_consistent; simpl; auto).
  revert H0. generalize (App_init os env sf fs).
  induction acts as [|act acts IH]; intros app H Hw; simpl; [exact H|].
  simpl in Hw. apply andb_true_iff in Hw. destruct Hw as [Hw1 Hw2].
  apply IH; [apply ui_step_consistent; assumption|exact Hw2].
Qed.

(** X12. A click on Start in an application that is not logging, with a
    non-empty path.  When neither [open] nor the [flush()] after the
    header raises, a new logger for that path is built and started: its
    tracker is empty and it has seen no button, whatever the previous
    session saw; it carries the thresholds and the option shown in the
    window; the file has a header row if it was absent or empty and is
    left as it was otherwise; no other file changes, and what was still in
    the queue stays there.  When [open] raises (a missing directory, for
    one), an error box is shown, no logger is kept, the application stays
    idle with its buttons as they were, and no file changes.  When the
    [flush()] after the header raises, the error box is shown as well, no
    logger is kept and the application stays idle. *)
Theorem start_click_opens_fresh_session
    (os : OsPath) (env : UiEnv) (app : App) :
  is_logging app = false ->
  String.eqb (strip os (file_var app)) "" = false ->
  let path := strip os (file_var app) in
  let app' := toggle_logging os env app in
  (open_raises (ui_calls env) = false ->
   flush_raises (ui_calls env) = false ->
   exists l,
     logger app' = Some l
     /\ filepath l = path
     /\ _lmb_down_times l = [] /\ _last_btn_ts_ms l = None
     /\ start_ms l = Some (_ts_ms (ui_calls env))
     /\ _near_click_ms l = near_click_ms app
     /\ _combat_cps l = combat_cps app
     /\ _coords_enabled l = coords_enabled app
     /\ is_open l = true /\ listener l <> None
     /\ is_logging app' = true
     /\ shown app' = shown app
     /\ app_event_queue app' = app_event_queue app
     /\ files app' path
        = Some (match files app path with
                | Some (row :: d) => row :: d
                | _ => [HEADER]
                end)
     /\ (forall p, p <> path -> files app' p = files app p))
  /\ (open_raises (ui_calls env) = true ->
      logger app' = None
      /\ is_logging app' = false
      /\ shown app' = shown app ++ ["Error"%string]
      /\ app_event_queue app' = app_event_queue app
      /\ (forall p, files app' p = files app p)
      /\ start_btn app' = start_btn app /\ stop_btn app' = stop_btn app)
  /\ (open_raises (ui_calls env) = false ->
      flush_raises (ui_calls env) = true ->
      files app path = None \/ files app path = Some [] ->
      logger app' = None
      /\ is_logging app' = false
      /\ shown app' = shown app ++ ["Error"%string]
      /\ (forall p, p <> path -> files app' p = files app p)
      /\ start_btn app' = start_btn app /\ stop_btn app' = stop_btn app).
Proof.
  intros Hi Hp path app'. unfold app'.
  rewrite (toggle_start os env app Hi Hp). fold path.
  set (l0 := __init__ path (app_event_queue app) (near_click_ms app)
               (combat_cps app) (coords_enabled app)
               (time_time (ui_calls env)) (files app path)).
  pose proof (start_filepath (ui_calls env) l0) as P.
  split; [|split].
  - intros Ho Hf.
    pose proof (start_works (ui_calls env) l0 eq_refl Ho Hf) as R.
    destruct (start_idle (ui_calls env) l0 eq_refl R) as (O & _).
    destruct (start_frame (ui_calls env) l0 eq_refl R)
      as (F1 & F2 & F3 & F4 & F5 & F6 & F7 & F8).
    pose proof (start_sets_start_ms (ui_calls env) l0 eq_refl R) as T.
    rewrite R.
    exists (snd (start (ui_calls env) l0)). simpl.
    rewrite P. simpl. rewrite String.eqb_refl.
    repeat split; auto.
    intros p Hne. apply String.eqb_neq in Hne. rewrite Hne. reflexivity.
  - intros Ho. rewrite (start_open_raises (ui_calls env) l0 eq_refl Ho).
    simpl. repeat split; auto. intros p.
    destruct (String.eqb p path) eqn:E; [|reflexivity].
    apply String.eqb_eq in E. subst p. reflexivity.
  - intros Ho Hf Hd.
    destruct (fst (start (ui_calls env) l0)) as [|e] eqn:R.
    + apply (start_returns (ui_calls env) l0 eq_refl) in R.
      destruct R as [_ R]. rewrite R in Hf; [discriminate Hf|exact Hd].
    + simpl. rewrite P. simpl. repeat split; auto.
      intros p Hne. apply String.eqb_neq in Hne. rewrite Hne. reflexivity.
Qed.

(** *** Polling the queue *)

Lemma poll_loop_drains (rs : list EventRecord) :
  forall (fuel : nat) (app : App) (updated : bool) (cps : Q),
    items (app_event_queue app) = rs ->
    (List.length rs < fuel)%nat ->
    let app' := fst (fst (poll_loop fuel app updated cps)) in
    items (app_event_queue app') = []
    /\ maxsize (app_event_queue app') = maxsize (app_event_queue app)
    /\ event_count app' = event_count app + Z.of_nat (List.length rs)
    /\ log_box app'
       = log_box app
         ++ map (fun r =>
                   {| line_record := r; line_coords := coords_enabled app;
                      line_wheel := contains "Wheel" (rec_event r);
                      line_marker := fst (markers r);
                      line_tags := snd (markers r) |}) rs
    /\ snd (fst (poll_loop fuel app updated cps))
       = match rs with [] => updated | _ => true end.
Proof.
  induction rs as [|r rs IH]; intros fuel app updated cps Hq Hfuel;
    (destruct fuel as [|fuel]; [simpl in Hfuel; lia|]); simpl;
    unfold get_nowait; rewrite Hq.
  - simpl. rewrite Hq, app_nil_r. repeat split. lia.
  - unfold poll_record. destruct (markers r) as [m tags] eqn:Em.
    match goal with
    | |- context [poll_loop fuel ?a ?u ?c] =>
        destruct (IH fuel a u c) as (H1 & H2 & H3 & H4 & H5);
          [reflexivity|simpl in Hfuel; lia|]
    end.
    cbv zeta. rewrite H1, H2, H3, H4, H5. simpl.
    rewrite <- app_assoc. simpl. repeat split; try lia.
    destruct rs; reflexivity.
Qed.

(** X13. A poll of the queue takes every waiting record, oldest first:
    the queue is left empty with its capacity unchanged, the event count
    grows by the number of records taken, one line per record is added to
    the log box in queue order, and the counter shown is the event count
    when anything was taken.  With nothing waiting the application is
    left as it was.  After a poll a bounded queue is not full. *)
Theorem on_poll_queue_drains (app : App) :
  let rs := items (app_event_queue app) in
  let app' := on_poll_queue app in
  items (app_event_queue app') = []
  /\ maxsize (app_event_queue app') = maxsize (app_event_queue app)
  /\ event_count app' = event_count app + Z.of_nat (List.length rs)
  /\ log_box app'
     = log_box app
       ++ map (fun r =>
                 {| line_record := r; line_coords := coords_enabled app;
                    line_wheel := contains "Wheel" (rec_event r);
                    line_marker := fst (markers r);
                    line_tags := snd (markers r) |}) rs
  /\ (rs <> [] -> count_var app' = event_count app')
  /\ (rs = [] -> app' = app)
  /\ (0 < maxsize (app_event_queue app) -> full (app_event_queue app') = false).
Proof.
  intros rs app'. subst app'. unfold on_poll_queue.
  assert (Hrs : items (app_event_queue app) = rs) by reflexivity.
  clearbody rs. rewrite Hrs.
  pose proof (poll_loop_drains rs (S (List.length rs)) app false 0%Q Hrs
                (Nat.lt_succ_diag_r _)) as H.
  destruct (poll_loop (S (List.length rs)) app false 0%Q)
    as [[app1 updated] cps] eqn:E.
  simpl in H. destruct H as (H1 & H2 & H3 & H4 & H5).
  assert (Hfull : 0 < maxsize (app_event_queue app) ->
                  full (app_event_queue app1) = false).
  { intros Hm. unfold full. rewrite H1, H2. simpl.
    apply andb_false_iff. right. apply Z.leb_gt. exact Hm. }
  destruct rs as [|r rs'].
  - subst updated. simpl in E. unfold get_nowait in E. rewrite Hrs in E.
    inversion E; subst app1.
    repeat split; auto. intros Hne. congruence.
  - subst updated. simpl. repeat split; auto. intros Hne. discriminate.
Qed.

(** *** Highlighting *)

Lemma enrich_event (env : Env) (ev : Event) (s : State) :
  rec_event (snd (enrich env ev s))
  = match ev with
    | Click _ _ button pressed =>
        (name button ++ (if pressed then "Down" else "Up"))%string
    | Scroll _ _ _ dy =>
        if 0 <? dy then "WheelUp"%string
        else if dy <? 0 then "WheelDown"%string else "Wheel"%string
    end.
Proof.
  destruct ev as [x y b p|x y dx dy]; unfold enrich.
  - unfold click_record.
    destruct (String.eqb (name b) "left" && p); simpl;
      destruct (_coords_enabled s); reflexivity.
  - unfold scroll_record; simpl. destruct (_coords_enabled s); reflexivity.
Qed.

Lemma click_scroll_near_click (env : Env) (x y : Z) (b : Button) (p : bool)
    (s : State) :
  rec_scroll_near_click (snd (click_record env x y b p s)) = 0.
Proof.
  unfold click_record.
  destruct (String.eqb (name b) "left" && p); simpl;
    destruct (_coords_enabled s); reflexivity.
Qed.

Lemma markers_tags (r : EventRecord) :
  snd (markers r)
  = match (rec_scroll_near_click r =? 1)
          && (contains "WheelUp" (rec_event r)
              || contains "WheelDown" (rec_event r)),
          String.eqb (rec_combat_state r) "combat" with
    | true, true => ["near"; "combat"]%string
    | true, false => ["near"]%string
    | false, true => ["combat"]%string
    | false, false => ["normal"]%string
    end.
Proof.
  unfold markers.
  destruct ((rec_scroll_near_click r =? 1)
            && (contains "WheelUp" (rec_event r)
                || contains "WheelDown" (rec_event r)));
    destruct (String.eqb (rec_combat_state r) "combat"); reflexivity.
Qed.

(** X14. The tags of the line shown for an event: it is tagged ["near"]
    exactly when the event is a wheel event with a vertical movement
    ([dy] not 0) whose [scroll_near_click] is 1, so never for a button
    event and never for a wheel event without vertical movement; it is
    tagged ["combat"] exactly when its [combat_state] is ["combat"]; it is
    tagged ["normal"] exactly when it has neither tag, and it always has a
    tag. *)
Theorem tags_of_enriched_record (env : Env) (ev : Event) (s : State) :
  let r := snd (enrich env ev s) in
  let tags := snd (markers r) in
  (In "near"%string tags <->
   exists x y dx dy, ev = Scroll x y dx dy /\ dy <> 0
                     /\ rec_scroll_near_click r = 1)
  /\ (In "combat"%string tags <-> rec_combat_state r = "combat"%string)
  /\ (In "normal"%string tags <->
      ~ In "near"%string tags /\ ~ In "combat"%string tags)
  /\ tags <> [].
Proof.
  intros r tags. unfold tags. rewrite markers_tags.
  assert (Hnear :
    (rec_scroll_near_click r =? 1)
    && (contains "WheelUp" (rec_event r) || contains "WheelDown" (rec_event r))
    = true
    <-> exists x y dx dy, ev = Scroll x y dx dy /\ dy <> 0
                          /\ rec_scroll_near_click r = 1).
  { unfold r. rewrite enrich_event. destruct ev as [x y b p|x y dx dy].
    - unfold enrich. rewrite click_scroll_near_click. simpl.
      split; [discriminate|]. intros (? & ? & ? & ? & E & _). discriminate.
    - rewrite andb_true_iff, Z.eqb_eq. split.
      + intros [Hn Hc]. exists x, y, dx, dy. repeat split; auto.
        intros Hz. subst dy. simpl in Hc. discriminate.
      + intros (x' & y' & dx' & dy' & E & Hz & Hn). inversion E; subst.
        split; [exact Hn|].
        destruct (Z.ltb_spec 0 dy'); [reflexivity|].
        destruct (Z.ltb_spec dy' 0); [reflexivity|lia]. }
  assert (Hcombat : String.eqb (rec_combat_state r) "combat" = true
                    <-> rec_combat_state r = "combat"%string)
    by apply String.eqb_eq.
  destruct ((rec_scroll_near_click r =? 1)
            && (contains "WheelUp" (rec_event r)
                || contains "WheelDown" (rec_event r)));
    destruct (String.eqb (rec_combat_state r) "combat");
    simpl; repeat split; intros;
    try (apply Hnear; reflexivity); try (apply Hcombat; reflexivity);
    try (match goal with
         | H : exists _, _ |- _ => apply Hnear in H; discriminate H
         end);
    try (match goal with
         | H : rec_combat_state r = _ |- _ => apply Hcombat in H; discriminate H
         end);
    try (intuition discriminate); auto.
Qed.

(** *** Stopping from the window *)

(** X15. In a consistent application that is logging, a click on Stop and
    the closing of the window stop the logger.  When [close()] does not
    raise, whatever the guarded calls do, every row of the session,
    flushed or not, is then in the file, which is closed once, and no
    error box is shown; after Stop the application is idle again and
    proposes a new time-stamped path.  When [close()] raises, Stop shows
    an error box and the application still shows itself as logging, with
    the same path, although the listener is stopped and the file object
    is closed; a second click on Stop then succeeds, whatever its calls
    do, and leaves the application idle. *)
Theorem stop_click_saves_every_row
    (os : OsPath) (env env2 : UiEnv) (app : App) (l : State) :
  ui_consistent app ->
  is_logging app = true ->
  logger app = Some l ->
  let rows := contents (sync_in app l) in
  let app' := toggle_logging os env app in
  (close_raises (ui_calls env) = false ->
   is_logging app' = false
   /\ shown app' = shown app
   /\ files app' (filepath l) = Some rows
   /\ (exists l', logger app' = Some l' /\ listener l' = None /\ _f l' = None
                  /\ _csv l' = None /\ n_close l' = S (n_close l))
   /\ file_var app' = _new_timestamped_path os env app
   /\ files (on_close os env app) (filepath l) = Some rows)
  /\ (close_raises (ui_calls env) = true ->
      is_logging app' = true
      /\ shown app' = shown app ++ ["Error"%string]
      /\ file_var app' = file_var app
      /\ (exists l' f, logger app' = Some l' /\ listener l' = None
                       /\ _f l' = Some f /\ closed f = true)
      /\ (let app'' := toggle_logging os env2 app' in
          is_logging app'' = false
          /\ shown app'' = shown app'
          /\ exists l'', logger app'' = Some l'' /\ listener l'' = None
                         /\ _f l'' = None /\ _csv l'' = None)).
Proof.
  intros H Hi Hl rows app'.
  destruct (consistent_logging_open app l H Hi Hl) as [Ho _].
  pose proof (stop_filepath (ui_calls env) (sync_in app l)) as P.
  split; intros Hcr.
  - destruct (stop_open (ui_calls env) _ Ho Hcr) as (R & D & L & F & W & N).
    unfold app', toggle_logging, on_close. rewrite Hi, Hl. simpl negb. cbv iota.
    destruct (stop (ui_calls env) (sync_in app l)) as [o l1].
    simpl in R, D, L, F, W, N, P. subst o.
    unfold save_settings.
    destruct (save_raises env); simpl; rewrite P; simpl;
      rewrite String.eqb_refl;
      (split; [reflexivity|]); (split; [reflexivity|]);
      (split; [exact D|]);
      (split; [exists l1; repeat split; assumption|]);
      (split; [reflexivity|exact D]).
  - destruct (stop_close_raises (ui_calls env) _ Ho Hcr)
      as (R & L & (f & F & Fc) & _ & _).
    assert (E : app' = upd_shown (shown app ++ ["Error"%string])
                         (sync_out (snd (stop (ui_calls env) (sync_in app l)))
                            app)).
    { unfold app', toggle_logging. rewrite Hi, Hl. simpl negb. cbv iota.
      destruct (stop (ui_calls env) (sync_in app l)) as [o l1].
      simpl in R. subst o. reflexivity. }
    set (l1 := snd (stop (ui_calls env) (sync_in app l))) in *.
    rewrite E. simpl.
    split; [exact Hi|]. split; [reflexivity|]. split; [reflexivity|].
    split; [exists l1, f; repeat split; assumption|].
    assert (F' : _f (sync_in (upd_shown (shown app ++ ["Error"%string])
                                (sync_out l1 app)) l1) = Some f)
      by (unfold sync_in; simpl; exact F).
    destruct (stop_on_closed_file (ui_calls env2) _ f F' Fc)
      as (R2 & L2 & F2 & W2 & _).
    unfold toggle_logging. simpl. rewrite Hi. simpl.
    match goal with
    | |- context [stop (ui_calls env2) ?x] =>
        change x with (sync_in (upd_shown (shown app ++ ["Error"%string])
                                  (sync_out l1 app)) l1)
    end.
    destruct (stop (ui_calls env2)
                (sync_in (upd_shown (shown app ++ ["Error"%string])
                            (sync_out l1 app)) l1)) as [o l2].
    simpl in R2, L2, F2, W2. subst o.
    unfold save_settings.
    destruct (save_raises env2); simpl;
      (split; [reflexivity|]); (split; [reflexivity|]);
      exists l2; repeat split; assumption.
Qed.


(** *** Settings *)

(** X17. The thresholds and the option a running application saves are
    the ones the next run of the application comes up with; with no
    settings file, or one that cannot be read, it comes up with the
    defaults (80 ms, 2.0 clicks per second, coordinates off) and proposes
    a file in the current directory. *)
Theorem settings_survive_restart
    (os : OsPath) (env env2 : UiEnv) (fs : string -> option (list Row))
    (near : Z) (cps : Q) (app : App) :
  save_raises env = false ->
  let saved := settings_file (ui_step os (SpinThresholds env near cps) app) in
  let app2 := App_init os env2 saved fs in
  near_click_ms app2 = near
  /\ combat_cps app2 = cps
  /\ coords_enabled app2 = coords_enabled app
  /\ forall sf, sf = NoFile \/ sf = Unreadable ->
       let a := App_init os env2 sf fs in
       near_click_ms a = NEAR_CLICK_MS_DEFAULT
       /\ combat_cps a = COMBAT_CPS_DEFAULT
       /\ coords_enabled a = COORDS_ENABLED_DEFAULT
       /\ file_var a
          = join os (getcwd env2)
              (DEFAULT_BASENAME ++ "_" ++ strftime env2 ++ ".csv")%string.
Proof.
  intros Hs saved app2.
  assert (E : exists d,
             saved = Json {| get_near_click_ms := Some near;
                             get_combat_cps := Some cps;
                             get_coords_enabled := Some (coords_enabled app);
                             get_last_log_dir := d |}).
  { unfold saved. simpl. unfold App_on_threshold_changed, save_settings.
    rewrite Hs. cbn [logger upd_combat_cps upd_near_click_ms].
    destruct (logger app); eexists; reflexivity. }
  destruct E as [d E]. unfold app2. rewrite E.
  split; [reflexivity|]. split; [reflexivity|]. split; [reflexivity|].
  intros sf [H|H]; subst sf; repeat split.
Qed.

(** *** Time since the last button event *)

Lemma last_button_in_clock (evs : list (Env * Event)) (t : Z) :
  last_button evs = Some t -> In t (clock evs).
Proof.
  unfold last_button. intros H.
  assert (Hin : In t (rev (clock (filter (fun p => is_button (snd p)) evs)))).
  { destruct (rev (clock (filter (fun p => is_button (snd p)) evs)));
      [discriminate|]. inversion H; subst. left; reflexivity. }
  apply in_rev in Hin. unfold clock in *. apply in_map_iff in Hin.
  destruct Hin as [p [Hp Hin]]. apply filter_In in Hin.
  apply in_map_iff. exists p. split; [exact Hp|apply Hin].
Qed.

(** X18. In a session whose clock readings do not decrease, the
    [ms_since_button_event] of a record is 0 for a button event and, for a
    wheel event, the time elapsed since the last button event of the
    session, or 0 when there was none; it is never negative. *)
Theorem ms_since_button_event_is_gap
    (evs : list (Env * Event)) (env : Env) (ev : Event) (s0 : State) :
  _last_btn_ts_ms s0 = None ->
  StronglySorted Z.le (clock (evs ++ [(env, ev)])) ->
  let r := snd (enrich env ev (run evs s0)) in
  rec_ms_since_button_event r
  = match ev with
    | Click _ _ _ _ => 0
    | Scroll _ _ _ _ =>
        match last_button evs with
        | Some t => _ts_ms env - t
        | None => 0
        end
    end
  /\ 0 <= rec_ms_since_button_event r.
Proof.
  intros H0 Hs r.
  assert (E : rec_ms_since_button_event r
              = match ev with
                | Click _ _ _ _ => 0
                | Scroll _ _ _ _ =>
                    match last_button evs with
                    | Some t => _ts_ms env - t
                    | None => 0
                    end
                end).
  { unfold r. rewrite <- (run_last_btn_ts_ms evs s0 H0).
    destruct ev as [x y b p|x y dx dy]; unfold enrich.
    - unfold click_record.
      destruct (String.eqb (name b) "left" && p); simpl;
        destruct (_coords_enabled (run evs s0)); reflexivity.
    - unfold scroll_record; simpl.
      destruct (_coords_enabled (run evs s0)); reflexivity. }
  split; [exact E|]. rewrite E.
  destruct ev as [x y b p|x y dx dy]; [lia|].
  destruct (last_button evs) as [t|] eqn:Hl; [|lia].
  rewrite clock_app in Hs. simpl in Hs.
  destruct (sorted_app_inv _ _ Hs) as [_ Hle].
  rewrite Forall_forall in Hle.
  specialize (Hle t (last_button_in_clock evs t Hl)). lia.
Qed.

(** ** The further properties at sample inputs *)

Lemma ms_since_start_monotone_witness :
  listener fresh = None
  /\ fst (start (at_ms 100) fresh) = Returned
  /\ map rec_ms_since_start
       (records [(at_ms 100, lmb_down); (at_ms 150, wheel_down)]
          (snd (start (at_ms 100) fresh)))
     = [0; 50].
Proof.
  split; [reflexivity|]. split; [reflexivity|].
  destruct (ms_since_start_monotone (at_ms 100)
              [(at_ms 100, lmb_down); (at_ms 150, wheel_down)] fresh eq_refl
              eq_refl)
    as (H & _); [|exact H].
  simpl. repeat (constructor; try lia).
Defined.

Lemma left_press_counts_itself_witness :
  let s := on_threshold_changed 80 (1 # 1) started in
  (_combat_cps s <= 1)%Q
  /\ rec_combat_state (snd (click_record (at_ms 5) 0 0 {| name := "left" |} true s))
     = "combat"%string.
Proof.
  intros s.
  assert (H : (_combat_cps s <= 1)%Q) by (apply Qle_bool_iff; reflexivity).
  split; [exact H|].
  destruct (left_press_counts_itself (at_ms 5) 0 0 {| name := "left" |} s
              eq_refl H) as [R _].
  exact R.
Defined.

Lemma idle_without_left_press_witness :
  downs ([(at_ms 10, right_down)] ++ [(at_ms 20, wheel_down)]) = []
  /\ rec_combat_state
       (snd (enrich (at_ms 20) wheel_down (run [(at_ms 10, right_down)] started)))
     = "idle"%string.
Proof.
  split; [reflexivity|].
  apply (idle_without_left_press [(at_ms 10, right_down)] (at_ms 20)
           wheel_down started); reflexivity.
Defined.


Lemma file_append_only_witness :
  exists k,
    disk (calls [CallBack (at_ms 10) lmb_down; CallStop (at_ms 20)] started)
    = Some ([HEADER] ++ k).
Proof.
  exact (file_append_only [CallBack (at_ms 10) lmb_down; CallStop (at_ms 20)]
           started [HEADER] eq_refl).
Defined.

Lemma queue_order_is_file_order_witness :
  is_open started = true
  /\ items (event_queue (run three_downs started))
     = items (event_queue started) ++ records three_downs started.
Proof.
  split; [reflexivity|].
  assert (Hroom : maxsize (event_queue started) <= 0
                  \/ Z.of_nat (List.length (items (event_queue started))
                               + List.length three_downs)
                     <= maxsize (event_queue started))
    by (right; simpl; lia).
  destruct (queue_order_is_file_order three_downs started eq_refl Hroom)
    as [H _].
  exact H.
Defined.

Lemma session_closes_once_witness :
  listener fresh = None /\ _f fresh = None
  /\ n_close (snd (stop (failing_at 700) (run three_downs started))) = 1%nat.
Proof.
  split; [reflexivity|]. split; [reflexivity|].
  destruct (session_closes_once (at_ms 0) (failing_at 700) three_downs fresh
              eq_refl eq_refl eq_refl eq_refl eq_refl) as (_ & _ & H & _).
  exact H.
Defined.

Lemma header_once_across_sessions_witness :
  exists rows1 rows2,
    disk (snd (stop (at_ms 30)
                 (run [(at_ms 25, wheel_down)]
                    (snd (start (at_ms 20)
                            (snd (stop (at_ms 15)
                                    (run [(at_ms 10, lmb_down)] started))))))))
    = Some (HEADER :: rows1 ++ rows2)
    /\ List.length rows1 = 1%nat /\ List.length rows2 = 1%nat.
Proof.
  eexists. eexists. split.
  - apply (header_once_across_sessions (at_ms 0) (at_ms 15) (at_ms 20)
             (at_ms 30) [(at_ms 10, lmb_down)] [(at_ms 25, wheel_down)] fresh
             eq_refl eq_refl (or_introl eq_refl) eq_refl eq_refl eq_refl
             eq_refl eq_refl).
  - split; reflexivity.
Defined.

Lemma sample_logging_app_consistent : ui_consistent sample_logging_app.
Proof.
  apply (ui_step_consistent sample_os (ClickStartStop (ui_at 0)) sample_app
           eq_refl).
  unfold ui_consistent. simpl. auto.
Qed.

Lemma ui_stays_consistent_witness :
  let acts :=
    [ClickStartStop (ui_at 0); MouseEvent (at_ms 5) lmb_down;
     ClickStartStop (ui_at 9)] in
  no_close_failure acts = true
  /\ ui_consistent (ui_run sample_os acts sample_app).
Proof.
  intros acts. split; [reflexivity|].
  exact (ui_stays_consistent sample_os (ui_at 0) NoFile (fun _ => None) acts
           eq_refl).
Defined.

Lemma start_click_opens_fresh_session_witness :
  is_logging sample_app = false
  /\ exists l, logger sample_logging_app = Some l /\ _lmb_down_times l = [].
Proof.
  split; [reflexivity|].
  destruct (start_click_opens_fresh_session sample_os (ui_at 0) sample_app
              eq_refl eq_refl) as [H _].
  destruct (H eq_refl eq_refl) as (l & H1 & _ & H3 & _).
  exists l. split; assumption.
Defined.

Lemma stop_click_saves_every_row_witness :
  ui_consistent sample_logging_app
  /\ is_logging (toggle_logging sample_os (ui_at 9) sample_logging_app) = false.
Proof.
  split; [exact sample_logging_app_consistent|].
  destruct (stop_click_saves_every_row sample_os (ui_at 9) (ui_at 10)
              sample_logging_app sample_logger sample_logging_app_consistent
              eq_refl eq_refl) as [H _].
  destruct (H eq_refl) as (H1 & _).
  exact H1.
Defined.


Lemma settings_survive_restart_witness :
  save_raises (ui_at 0) = false
  /\ near_click_ms
       (App_init sample_os (ui_at 5)
          (settings_file
             (ui_step sample_os (SpinThresholds (ui_at 0) 120 (3 # 1)) sample_app))
          (fun _ => None))
     = 120.
Proof.
  split; [reflexivity|].
  destruct (settings_survive_restart sample_os (ui_at 0) (ui_at 5)
              (fun _ => None) 120 (3 # 1) sample_app eq_refl) as (H & _).
  exact H.
Defined.

Lemma ms_since_button_event_is_gap_witness :
  _last_btn_ts_ms started = None
  /\ rec_ms_since_button_event
       (snd (enrich (at_ms 1050) wheel_down
               (run [(at_ms 1000, lmb_down)] started)))
     = 50.
Proof.
  split; [reflexivity|].
  destruct (ms_since_button_event_is_gap [(at_ms 1000, lmb_down)] (at_ms 1050)
              wheel_down started eq_refl) as [H _]; [|exact H].
  simpl. repeat (constructor; try lia).
Defined.
